(** * qaoa_task.py: layer sweep of a four-qubit variational circuit

    A shallow embedding of [src/qaoa_task.py].  Python floats are IEEE
    binary64 numbers, which is what Rocq's primitive [float] is, so every
    comparison and arithmetic step of the script is modelled bit for bit.
    The calls into cirq, numpy, scipy and matplotlib are parameters of the
    development: the script's own logic (circuit layout, reshaping, the
    restart loop, the layer sweep, the grid search) is what is verified. *)

From Stdlib Require Import String.
From Stdlib Require Import List ZArith Lia Bool.
From Stdlib Require Import Floats.
Import ListNotations.

Set Implicit Arguments.

Local Open Scope Z_scope.

(** ** Exceptions and results *)

Inductive exn : Type :=
| ValueError
| IndexError
| TypeError
| UnboundLocalError.

Inductive result (A : Type) : Type :=
| Ok (a : A)
| Raise (e : exn).

Arguments Ok {A} a.
Arguments Raise {A} e.

Definition rbind {A B} (r : result A) (k : A -> result B) : result B :=
  match r with
  | Ok a => k a
  | Raise e => Raise e
  end.

(** Computations that thread a state [S] and may raise.  The state
    survives an exception, as the outside world does in Python. *)
Definition M (S A : Type) : Type := S -> result A * S.

Definition ret {S A} (a : A) : M S A := fun s => (Ok a, s).

Definition bind {S A B} (m : M S A) (k : A -> M S B) : M S B :=
  fun s =>
    match m s with
    | (Ok a, s') => k a s'
    | (Raise e, s') => (Raise e, s')
    end.

Definition lift {S A} (r : result A) : M S A := fun s => (r, s).

Declare Scope py_scope.
Delimit Scope py_scope with py.
Notation "x <- m ;; k" := (bind m (fun x => k))
  (at level 61, m at next level, right associativity) : py_scope.
Notation "m ;;; k" := (bind m (fun _ => k))
  (at level 61, right associativity) : py_scope.
Notation "x <~ r ;; k" := (rbind r (fun x => k))
  (at level 61, r at next level, right associativity) : py_scope.

(** [for x in xs: acc = body acc x], the loop-carried variables being
    [acc]. *)
Fixpoint for_ {S A X} (xs : list X) (acc : A) (body : A -> X -> M S A)
  : M S A :=
  match xs with
  | [] => ret acc
  | x :: xs' => bind (body acc x) (fun acc' => for_ xs' acc' body)
  end.

Fixpoint rfor {A X} (xs : list X) (acc : A) (body : A -> X -> result A)
  : result A :=
  match xs with
  | [] => Ok acc
  | x :: xs' => rbind (body acc x) (fun acc' => rfor xs' acc' body)
  end.

(** ** Python built-ins *)

(** [range(lo, hi)] *)
Definition range (lo hi : Z) : list Z :=
  map (fun k => lo + Z.of_nat k) (seq 0 (Z.to_nat (hi - lo))).

(** [len(l)] *)
Definition len {A} (l : list A) : Z := Z.of_nat (length l).

(** [l[i]] for [0 <= i]; the script never indexes from the end except
    with [-1], for which see [getitem_last]. *)
Definition getitem {A} (l : list A) (i : Z) : result A :=
  if i <? 0 then Raise IndexError
  else match nth_error l (Z.to_nat i) with
       | Some a => Ok a
       | None => Raise IndexError
       end.

(** [l[-1]] *)
Definition getitem_last {A} (l : list A) : result A :=
  match rev l with
  | a :: _ => Ok a
  | [] => Raise IndexError
  end.

(** [l[:n]] and [l[n:]] *)
Definition slice_to {A} (n : nat) (l : list A) : list A := firstn n l.
Definition slice_from {A} (n : nat) (l : list A) : list A := skipn n l.

(** [[f(i) for i in xs]] where [f] may raise *)
Fixpoint comprehension {A X} (f : X -> result A) (xs : list X)
  : result (list A) :=
  match xs with
  | [] => Ok []
  | x :: xs' =>
      rbind (f x) (fun a =>
      rbind (comprehension f xs') (fun l => Ok (a :: l)))
  end.

(** ** Floats *)

(** [math.pi], the binary64 number nearest to pi. *)
Definition math_pi : float := 0x1.921fb54442d18p+1%float.

(** [float('inf')] *)
Definition float_inf : float := infinity.

(** Python's [x < y] and [x > y] on floats. *)
Definition flt (x y : float) : bool := (x <? y)%float.
Definition fgt (x y : float) : bool := (y <? x)%float.

(** The running minimum of the restart loop: [if v < opt_val: opt_val = v],
    from [float('inf')]. *)
Definition keep_smaller (opt_val v : float) : float :=
  if flt v opt_val then v else opt_val.

Definition best_of (vals : list float) : float :=
  fold_left keep_smaller vals float_inf.

(** ** Circuits (the part of cirq the script uses) *)

Inductive LineQubit : Type := LineQubit_at (x : Z).

(** [cirq.LineQubit.range(n)] *)
Definition LineQubit_range (n : Z) : list LineQubit :=
  map LineQubit_at (range 0 n).

(** Gate operations: [cirq.rz(a)(q)], [cirq.rx(a)(q)], [cirq.CZ(q1, q2)]. *)
Inductive Operation : Type :=
| rz (rads : float) (q : LineQubit)
| rx (rads : float) (q : LineQubit)
| CZ (q1 q2 : LineQubit).

(** What the block builders return and [circuit.append] receives: either
    a whole [cirq.Moment] or a single operation. *)
Inductive OpTree : Type :=
| Moment (ops : list Operation)
| Op (o : Operation).

(** A circuit is represented by the items appended to it, in order.
    cirq packs appended operations into moments without reordering the
    operations that share a qubit. *)
Definition Circuit : Type := list OpTree.

Definition Circuit_append (c : Circuit) (m : OpTree) : Circuit := c ++ [m].

(** cirq's checks on qubits.  A moment holds at most one operation per
    qubit and a two-qubit gate acts on two different qubits: otherwise
    cirq raises [ValueError]. *)
Definition LineQubit_eqb (q1 q2 : LineQubit) : bool :=
  match q1, q2 with
  | LineQubit_at x, LineQubit_at y => x =? y
  end.

Definition qubits_of (o : Operation) : list LineQubit :=
  match o with
  | rz _ q => [q]
  | rx _ q => [q]
  | CZ q1 q2 => [q1; q2]
  end.

Fixpoint distinct (qs : list LineQubit) : bool :=
  match qs with
  | [] => true
  | q :: qs' => negb (existsb (LineQubit_eqb q) qs') && distinct qs'
  end.

(** [cirq.Moment(ops)] *)
Definition cirq_Moment (ops : list Operation) : result OpTree :=
  if distinct (flat_map qubits_of ops) then Ok (Moment ops)
  else Raise ValueError.

(** [cirq.CZ(q1, q2)] *)
Definition cirq_CZ (q1 q2 : LineQubit) : result Operation :=
  if LineQubit_eqb q1 q2 then Raise ValueError else Ok (CZ q1 q2).

(** ** [EvenBlockMoments] and [OddBlockMoments] *)

Definition EvenBlockMoments (qubits : list LineQubit) (angles : list float)
  : result (list OpTree) :=
  (rots <~ comprehension
             (fun i => a <~ getitem angles i ;;
                       q <~ getitem qubits i ;;
                       Ok (rz a q))
             (range 0 4) ;;
   moment <~ cirq_Moment rots ;;
   let moments := [moment] in
   q0 <~ getitem qubits 0 ;; q1 <~ getitem qubits 1 ;;
   cz <~ cirq_CZ q0 q1 ;;
   let moments := moments ++ [Op cz] in
   q0 <~ getitem qubits 0 ;; q2 <~ getitem qubits 2 ;;
   cz <~ cirq_CZ q0 q2 ;;
   let moments := moments ++ [Op cz] in
   q0 <~ getitem qubits 0 ;; q3 <~ getitem qubits 3 ;;
   cz <~ cirq_CZ q0 q3 ;;
   let moments := moments ++ [Op cz] in
   q1 <~ getitem qubits 1 ;; q2 <~ getitem qubits 2 ;;
   cz <~ cirq_CZ q1 q2 ;;
   let moments := moments ++ [Op cz] in
   q1 <~ getitem qubits 1 ;; q3 <~ getitem qubits 3 ;;
   cz <~ cirq_CZ q1 q3 ;;
   let moments := moments ++ [Op cz] in
   q2 <~ getitem qubits 2 ;; q3 <~ getitem qubits 3 ;;
   cz <~ cirq_CZ q2 q3 ;;
   let moments := moments ++ [Op cz] in
   Ok moments)%py.

Definition OddBlockMoments (qubits : list LineQubit) (angles : list float)
  : result (list OpTree) :=
  (rots <~ comprehension
             (fun i => a <~ getitem angles i ;;
                       q <~ getitem qubits i ;;
                       Ok (rx a q))
             (range 0 4) ;;
   moment <~ cirq_Moment rots ;;
   Ok [moment])%py.

(** ** [RunCircuit] *)

(** The value of the local [circuit] when the loop of [RunCircuit] ends. *)
Definition RunCircuit_circuit (angle_array : list (list float))
  : result Circuit :=
  let circuit : Circuit := [] in
  let test_qubits := LineQubit_range 4 in
  rfor (range 0 (len angle_array)) circuit
    (fun circuit i =>
       (row <~ getitem angle_array i ;;
        let even_angles := slice_to 4 row in
        row <~ getitem angle_array i ;;
        let odd_angles := slice_from 4 row in
        ms <~ EvenBlockMoments test_qubits even_angles ;;
        let circuit := fold_left Circuit_append ms circuit in
        ms <~ OddBlockMoments test_qubits odd_angles ;;
        let circuit := fold_left Circuit_append ms circuit in
        Ok circuit)%py).

(** ** numpy arrays *)

(** Rows of [cols] elements cut from a flat list, [rows] of them. *)
Fixpoint chunks {A} (rows cols : nat) (l : list A) : list (list A) :=
  match rows with
  | O => []
  | S rows' => firstn cols l :: chunks rows' cols (skipn cols l)
  end.

(** [a.reshape((rows, cols))] on a one-dimensional array: numpy raises
    [ValueError] unless [rows * cols] is the size of [a]. *)
Definition reshape {A} (a : list A) (rows cols : Z) : result (list (list A)) :=
  if (0 <=? rows) && (0 <=? cols) && (rows * cols =? len a)
  then Ok (chunks (Z.to_nat rows) (Z.to_nat cols) a)
  else Raise ValueError.

(** The fields of scipy's [OptimizeResult] that matter here. *)
Record OptimizeResult : Type := {
  res_x : list float;
  res_fun : float
}.

Definition newline : string := String (Ascii.ascii_of_nat 10) EmptyString.

(** ** The script, over its libraries *)

Section Script.

(** A numpy array of complex amplitudes. *)
Variable StateVec : Type.
(** Everything outside the interpreter that the libraries read or
    change: numpy's random generator, standard output, the pyplot
    figure. *)
Variable world : Type.
(** What [cirq.Simulator().simulate] returns. *)
Variable TrialResult : Type.

(** [print(circuit)] *)
Variable builtin_print : Circuit -> world -> world.
(** [simulator.simulate(program, initial_state)]; the circuits built
    here have no measurement and no noise, for which the simulator draws
    no random number. *)
Variable Simulator_simulate : Circuit -> option Z -> TrialResult.
(** [result.state_vector()] *)
Variable state_vector : TrialResult -> StateVec.
(** [cirq.testing.random_superposition(dim)] *)
Variable random_superposition : Z -> world -> StateVec * world.
(** [np.random.uniform(low, high, size)] *)
Variable random_uniform : float -> float -> Z -> world -> list float * world.
(** [np.linalg.norm(v)] *)
Variable linalg_norm : StateVec -> float.
(** [u - v] on arrays *)
Variable ndarray_sub : StateVec -> StateVec -> StateVec.
(** [scipy.optimize.minimize(fun, x0, bounds=bounds)] *)
Variable minimize :
  (list float -> M world float) -> list float -> list (float * float) ->
  world -> OptimizeResult * world.
(** [plt.plot(xs, ys)], which may raise, and the other pyplot calls. *)
Variable plt_plot : list Z -> list float -> M world unit.
Variable plt_title plt_xlabel plt_ylabel : string -> world -> world.
Variable plt_show : world -> world.

Definition RunCircuit (angle_array : list (list float)) : M world StateVec :=
  (circuit <- lift (RunCircuit_circuit angle_array) ;;
   (fun w => (Ok tt, builtin_print circuit w)) ;;;
   let simulator_result := Simulator_simulate circuit None in
   ret (state_vector simulator_result))%py.

(** The closure [Objective] of [GeneratePlot], with the [phi] it
    captures. *)
Definition Objective (phi : StateVec) (angles : list float) : M world float :=
  (angle_array <- lift (reshape angles (len angles / 8) 8) ;;
   out <- RunCircuit angle_array ;;
   ret (linalg_norm (ndarray_sub phi out)))%py.

(** *** Calls into the libraries, with what they returned *)

Inductive Call : Type :=
| call_random_superposition (dim : Z) (returned : StateVec)
| call_uniform (low high : float) (size : Z) (returned : list float)
| call_minimize (fn : list float -> M world float) (x0 : list float)
    (bounds : list (float * float)) (returned : OptimizeResult)
| call_plot (xs : list Z) (ys : list float)
| call_title (s : string)
| call_xlabel (s : string)
| call_ylabel (s : string)
| call_show.

(** A run of [GeneratePlot]: the outside world and the calls made so
    far, oldest first. *)
Record Run : Type := { ext : world; calls : list Call }.

Definition logged {A} (f : world -> A * world) (c : A -> Call) : M Run A :=
  fun r =>
    let (a, w) := f (ext r) in
    (Ok a, {| ext := w; calls := calls r ++ [c a] |}).

Definition cirq_testing_random_superposition (dim : Z) : M Run StateVec :=
  logged (random_superposition dim) (call_random_superposition dim).

Definition np_random_uniform (low high : float) (size : Z)
  : M Run (list float) :=
  logged (random_uniform low high size) (call_uniform low high size).

Definition scipy_minimize (fn : list float -> M world float)
    (x0 : list float) (bounds : list (float * float))
  : M Run OptimizeResult :=
  logged (minimize fn x0 bounds) (call_minimize fn x0 bounds).

Definition pyplot_plot (xs : list Z) (ys : list float) : M Run unit :=
  fun r =>
    let (res, w) := plt_plot xs ys (ext r) in
    (res, {| ext := w; calls := calls r ++ [call_plot xs ys] |}).

Definition pyplot (f : world -> world) (c : Call) : M Run unit :=
  logged (fun w => (tt, f w)) (fun _ => c).

Definition title_string : string :=
  ("Normalized Difference Between Circuit Output and" ++ newline
   ++ "Target State as a Function Circuit Layers")%string.

(** *** [GeneratePlot] *)

(** The body of [for _ in range(10)]; [opt_val] is the loop-carried
    variable. *)
Definition restart (phi : StateVec) (L : Z) (bounds : list (float * float))
    (opt_val : float) (_ : Z) : M Run float :=
  (start_angles <- np_random_uniform 0 (2 * math_pi) (8 * L) ;;
   opt <- scipy_minimize (Objective phi) start_angles bounds ;;
   ret (if flt (res_fun opt) opt_val then res_fun opt else opt_val))%py.

(** The body of [for L in range(2, max_L)]; [best_vals] is the
    loop-carried variable. *)
Definition layer (phi : StateVec) (best_vals : list float) (L : Z)
  : M Run (list float) :=
  (let bounds := map (fun _ => (0%float, (2 * math_pi)%float))
                     (range 0 (8 * L)) in
   let opt_val := float_inf in
   opt_val <- for_ (range 0 10) opt_val (restart phi L bounds) ;;
   ret (best_vals ++ [opt_val]))%py.

Definition GeneratePlot (max_L : Z) : M Run unit :=
  (let max_L := max_L + 1 in
   phi <- cirq_testing_random_superposition 16 ;;
   let best_vals := [] in
   best_vals <- for_ (range 2 max_L) best_vals (layer phi) ;;
   pyplot_plot (range 1 max_L) best_vals ;;;
   pyplot (plt_title title_string) (call_title title_string) ;;;
   pyplot (plt_xlabel "Circuit Layers") (call_xlabel "Circuit Layers") ;;;
   pyplot (plt_ylabel "Distance to target")
          (call_ylabel "Distance to target") ;;;
   pyplot plt_show call_show)%py.

(** *** Describing a run *)

(** The calls of a run that starts with no call made. *)
Definition trace (max_L : Z) (w : world) : list Call :=
  calls (snd (GeneratePlot max_L {| ext := w; calls := [] |})).

(** The bounds specified for layer count [L]: one pair
    [(0, 2*pi)] for each of the [8*L] angles. *)
Definition bounds_of (L : Z) : list (float * float) :=
  repeat (0%float, (2 * math_pi)%float) (Z.to_nat (8 * L)).

(** One swept layer count with its restarts: the start point drawn and
    what the solver returned from it. *)
Record Layer : Type := {
  layer_L : Z;
  layer_restarts : list (list float * OptimizeResult)
}.

Definition restart_calls (phi : StateVec) (L : Z)
    (r : list float * OptimizeResult) : list Call :=
  [ call_uniform 0 (2 * math_pi) (8 * L) (fst r);
    call_minimize (Objective phi) (fst r) (bounds_of L) (snd r) ].

Definition layer_calls (phi : StateVec) (ly : Layer) : list Call :=
  flat_map (restart_calls phi (layer_L ly)) (layer_restarts ly).

(** The solver's final objective values of a layer, in restart order. *)
Definition layer_vals (ly : Layer) : list float :=
  map (fun r => res_fun (snd r)) (layer_restarts ly).

Definition layer_best (ly : Layer) : float := best_of (layer_vals ly).

Definition is_pyplot_call (c : Call) : Prop :=
  match c with
  | call_title _ | call_xlabel _ | call_ylabel _ | call_show => True
  | _ => False
  end.

(** A call that is neither a second draw of the target nor a solver run on
    another objective than [Objective phi]. *)
Definition keeps_target (phi : StateVec) (c : Call) : Prop :=
  match c with
  | call_random_superposition _ _ => False
  | call_minimize fn _ _ _ => fn = Objective phi
  | _ => True
  end.

(** What a logged call does to the outside world, and whether the value
    logged as returned is what the library returns in that world. *)
Definition effect (c : Call) (w : world) : world :=
  match c with
  | call_random_superposition dim _ => snd (random_superposition dim w)
  | call_uniform low high size _ => snd (random_uniform low high size w)
  | call_minimize fn x0 bounds _ => snd (minimize fn x0 bounds w)
  | call_plot xs ys => snd (plt_plot xs ys w)
  | call_title s => plt_title s w
  | call_xlabel s => plt_xlabel s w
  | call_ylabel s => plt_ylabel s w
  | call_show => plt_show w
  end.

Definition returns (c : Call) (w : world) : Prop :=
  match c with
  | call_random_superposition dim v => v = fst (random_superposition dim w)
  | call_uniform low high size v => v = fst (random_uniform low high size w)
  | call_minimize fn x0 bounds v => v = fst (minimize fn x0 bounds w)
  | _ => True
  end.

(** The world after a list of calls made one after the other from [w]. *)
Fixpoint replay (cs : list Call) (w : world) : world :=
  match cs with
  | [] => w
  | c :: cs' => replay cs' (effect c w)
  end.

(** Every call of the list returned what the library returns in the world
    left by the calls before it. *)
Fixpoint genuine (cs : list Call) (w : world) : Prop :=
  match cs with
  | [] => True
  | c :: cs' => returns c w /\ genuine cs' (effect c w)
  end.

(** A computation all of whose dealings with the outside world are the
    calls it logs. *)
Definition accounted {A} (m : M Run A) : Prop :=
  forall r : Run,
  exists new : list Call,
    calls (snd (m r)) = calls r ++ new
    /\ ext (snd (m r)) = replay new (ext r)
    /\ genuine new (ext r).

End Script.

Arguments call_random_superposition {StateVec world} dim returned.
Arguments call_uniform {StateVec world} low high size returned.
Arguments call_minimize {StateVec world} fn x0 bounds returned.
Arguments call_plot {StateVec world} xs ys.
Arguments call_title {StateVec world} s.
Arguments call_xlabel {StateVec world} s.
Arguments call_ylabel {StateVec world} s.
Arguments call_show {StateVec world}.

(** ** [GridSearch] *)

(** An element of the list [angles] of [GridSearch]: a float, or (after
    the statement [angles[i] = start_angles]) the list [start_angles]
    itself. *)
Inductive pyval : Type :=
| PyFloat (f : float)
| PyList (l : list float).

(** [v < y] and [v > y] for a float [y]: Python raises [TypeError] when
    [v] is a list. *)
Definition py_lt (v : pyval) (y : float) : result bool :=
  match v with
  | PyFloat x => Ok (flt x y)
  | PyList _ => Raise TypeError
  end.

Definition py_gt (v : pyval) (y : float) : result bool :=
  match v with
  | PyFloat x => Ok (fgt x y)
  | PyList _ => Raise TypeError
  end.

(** [v += y] for a float [y]: a list cannot be extended by a float. *)
Definition py_iadd (v : pyval) (y : float) : result pyval :=
  match v with
  | PyFloat x => Ok (PyFloat (x + y)%float)
  | PyList _ => Raise TypeError
  end.

(** [l[i] = v] for [0 <= i] *)
Fixpoint set_nth {A} (l : list A) (n : nat) (v : A) : result (list A) :=
  match l, n with
  | [], _ => Raise IndexError
  | _ :: l', O => Ok (v :: l')
  | a :: l', S n' => rbind (set_nth l' n' v) (fun l'' => Ok (a :: l''))
  end.

Definition setitem {A} (l : list A) (i : Z) (v : A) : result (list A) :=
  if i <? 0 then Raise IndexError else set_nth l (Z.to_nat i) v.

(** The literal [1.01]. *)
Definition f1_01 : float := 0x1.028f5c28f5c29p+0%float.

(** The local variables of [GridSearch] that the [while] loop updates;
    [best_angles] is unbound until the first improvement. *)
Record gs_state : Type := {
  gs_angles : list pyval;
  gs_opt_val : float;
  gs_best_angles : option (list pyval)
}.

Section GridSearch.

(** State of the objective's side effects. *)
Variable S : Type.

Variable start_angles : list float.
Variables width resolution : float.
(** The callable passed in, applied to [np.array(angles)]; numpy builds
    the array from the list as it is, a list element included. *)
Variable Objective : list pyval -> M S float.

Definition np_array (angles : list pyval) : list pyval := angles.

(** The [for i in range(len(angles))] loop, from index [i] on; both
    [break]s end it. *)
Fixpoint carry (indices : list Z) (angles : list pyval)
  : result (list pyval) :=
  match indices with
  | [] => Ok angles
  | i :: indices' =>
      (a_i <~ getitem angles i ;;
       s_i <~ getitem start_angles i ;;
       over <~ py_gt a_i (s_i + width * f1_01)%float ;;
       if over then
         if i =? len angles - 1 then Ok angles
         else
           angles <~ setitem angles i (PyList start_angles) ;;
           a_n <~ getitem angles (i + 1) ;;
           a_n <~ py_iadd a_n resolution ;;
           angles <~ setitem angles (i + 1) a_n ;;
           carry indices' angles
       else Ok angles)%py
  end.

(** The test of the [while] loop. *)
Definition gs_cond (st : gs_state) : result bool :=
  (a_last <~ getitem_last (gs_angles st) ;;
   s_last <~ getitem_last start_angles ;;
   py_lt a_last (s_last + width * f1_01)%float)%py.

(** The body of the [while] loop. *)
Definition gs_body (st : gs_state) : M S gs_state :=
  (let angles := gs_angles st in
   obj <- Objective (np_array angles) ;;
   let st :=
     if flt obj (gs_opt_val st)
     then {| gs_angles := angles; gs_opt_val := obj;
             gs_best_angles := Some angles |}
     else st in
   a_0 <- lift (getitem angles 0) ;;
   a_0 <- lift (py_iadd a_0 resolution) ;;
   angles <- lift (setitem angles 0 a_0) ;;
   angles <- lift (carry (range 0 (len angles)) angles) ;;
   ret {| gs_angles := angles; gs_opt_val := gs_opt_val st;
          gs_best_angles := gs_best_angles st |})%py.

(** The [while] loop, run for at most [fuel] iterations; [None] when
    the fuel does not suffice. *)
Fixpoint gs_while (fuel : nat) (st : gs_state) : M S (option gs_state) :=
  match fuel with
  | O => ret None
  | Datatypes.S fuel' =>
      (continue <- lift (gs_cond st) ;;
       if continue : bool then
         st' <- gs_body st ;;
         gs_while fuel' st'
       else ret (Some st))%py
  end.

End GridSearch.

Definition GridSearch {S} (fuel : nat) (center_array : list float)
    (width resolution : float) (Objective : list pyval -> M S float)
  : M S (option (list pyval * float)) :=
  (let start_angles := map (fun a => (a - width / 2)%float) center_array in
   let angles := map PyFloat start_angles in
   let opt_val := float_inf in
   final <- gs_while start_angles width resolution Objective fuel
              {| gs_angles := angles; gs_opt_val := opt_val;
                 gs_best_angles := None |} ;;
   match final with
   | None => ret None
   | Some st =>
       match gs_best_angles st with
       | Some best_angles => ret (Some (best_angles, gs_opt_val st))
       | None => lift (Raise UnboundLocalError)
       end
   end)%py.

(** ** The layer structure of the circuit *)

(** Line qubit number [i]. *)
Definition q_ (i : Z) : LineQubit := LineQubit_at i.

(** The layer specified for one row of eight angles: a
    moment of Z rotations and the six controlled-Z gates (the even block),
    then a moment of X rotations (the odd block). *)
Definition even_block (row : list float) : list OpTree :=
  let a i := nth i row 0%float in
  [ Moment [rz (a 0%nat) (q_ 0); rz (a 1%nat) (q_ 1);
            rz (a 2%nat) (q_ 2); rz (a 3%nat) (q_ 3)];
    Op (CZ (q_ 0) (q_ 1)); Op (CZ (q_ 0) (q_ 2)); Op (CZ (q_ 0) (q_ 3));
    Op (CZ (q_ 1) (q_ 2)); Op (CZ (q_ 1) (q_ 3)); Op (CZ (q_ 2) (q_ 3)) ].

Definition odd_block (row : list float) : list OpTree :=
  let a i := nth i row 0%float in
  [ Moment [rx (a 4%nat) (q_ 0); rx (a 5%nat) (q_ 1);
            rx (a 6%nat) (q_ 2); rx (a 7%nat) (q_ 3)] ].

Definition layer_of_row (row : list float) : list OpTree :=
  even_block row ++ odd_block row.

(** What one iteration of the loop of [RunCircuit] does with the row it
    reads. *)
Definition append_row (circuit : Circuit) (row : list float) : result Circuit :=
  rbind (EvenBlockMoments (LineQubit_range 4) (slice_to 4 row))
    (fun ms =>
       let circuit := fold_left Circuit_append ms circuit in
       rbind (OddBlockMoments (LineQubit_range 4) (slice_from 4 row))
         (fun ms' => Ok (fold_left Circuit_append ms' circuit))).

(** ** A stand-in for the libraries

    A small deterministic instance of the library calls, used to run the
    script on concrete inputs: the world counts the calls, a draw of
    start angles returns [low] everywhere, the solver evaluates the
    objective once at the start point, and the plot call checks, as
    matplotlib does, that it gets as many x-values as y-values. *)

Definition stub_print (c : Circuit) (w : nat) : nat := S w.

Definition stub_simulate (c : Circuit) (initial_state : option Z) : Circuit :=
  c.

Definition stub_state_vector (r : Circuit) : nat := length r.

Definition stub_random_superposition (dim : Z) (w : nat) : nat * nat :=
  (Z.to_nat dim, S w).

Definition stub_uniform (low high : float) (size : Z) (w : nat)
  : list float * nat :=
  (repeat low (Z.to_nat size), S w).

Definition stub_norm (v : nat) : float :=
  if Nat.eqb v 0 then 0%float else 1%float.

Definition stub_sub (u v : nat) : nat := (v - u)%nat.

Definition stub_minimize (fn : list float -> M nat float) (x0 : list float)
    (bounds : list (float * float)) (w : nat) : OptimizeResult * nat :=
  match fn x0 w with
  | (Ok v, w') => ({| res_x := x0; res_fun := v |}, w')
  | (Raise _, w') => ({| res_x := x0; res_fun := nan |}, w')
  end.

Definition stub_plot (xs : list Z) (ys : list float) : M nat unit :=
  fun w =>
    (if Nat.eqb (length xs) (length ys) then Ok tt else Raise ValueError,
     S w).

Definition stub_label (s : string) (w : nat) : nat := S w.

Definition stub_show (w : nat) : nat := S w.

Definition stub_RunCircuit : list (list float) -> M nat nat :=
  RunCircuit stub_print stub_simulate stub_state_vector.

Definition stub_Objective : nat -> list float -> M nat float :=
  Objective stub_print stub_simulate stub_state_vector stub_norm stub_sub.

Definition stub_GeneratePlot (max_L : Z) : M (Run nat nat) unit :=
  GeneratePlot stub_print stub_simulate stub_state_vector
    stub_random_superposition stub_uniform stub_norm stub_sub stub_minimize
    stub_plot stub_label stub_label stub_label stub_show max_L.

Definition stub_trace (max_L : Z) (w : nat) : list (Call nat nat) :=
  trace stub_print stub_simulate stub_state_vector
    stub_random_superposition stub_uniform stub_norm stub_sub stub_minimize
    stub_plot stub_label stub_label stub_label stub_show max_L w.

(** An objective for [GridSearch] that returns [v] and records the
    argument of every evaluation. *)
Definition recording (v : float) (a : list pyval)
  : M (list (list pyval)) float :=
  fun log => (Ok v, log ++ [a]).

(** ** Vocabulary for further properties *)

Definition is_minimize_call {StateVec world} (c : Call StateVec world)
  : bool :=
  match c with
  | call_minimize _ _ _ _ => true
  | _ => false
  end.

Definition is_uniform_call {StateVec world} (c : Call StateVec world)
  : bool :=
  match c with
  | call_uniform _ _ _ _ => true
  | _ => false
  end.

(** The calls made before the plot is requested. *)
Definition is_draw_or_solve {StateVec world} (c : Call StateVec world)
  : Prop :=
  match c with
  | call_random_superposition _ _ => True
  | call_uniform _ _ _ _ => True
  | call_minimize _ _ _ _ => True
  | _ => False
  end.

(** An objective for [GridSearch] given by a function of the array, that
    records the argument of every evaluation. *)
Definition logging (f : list pyval -> float) (a : list pyval)
  : M (list (list pyval)) float :=
  fun log => (Ok (f a), log ++ [a]).

(** The [k]-th point of a grid line: [resolution] added [k] times to the
    start, in this order. *)
Fixpoint grid_point (start resolution : float) (k : nat) : float :=
  match k with
  | O => start
  | S k' => (grid_point start resolution k' + resolution)%float
  end.

(** The best value and point kept by [GridSearch] agree with the
    evaluations made so far: no evaluated array has a smaller objective
    value than [opt_val], and [best_angles], once assigned, is an
    evaluated array whose objective value is [opt_val]. *)
Definition gs_sound (f : list pyval -> float) (st : gs_state)
    (log : list (list pyval)) : Prop :=
  Forall (fun a => flt (f a) (gs_opt_val st) = false) log
  /\ match gs_best_angles st with
     | Some best =>
         In best log /\ f best = gs_opt_val st
         /\ flt (gs_opt_val st) float_inf = true
     | None => gs_opt_val st = float_inf
     end.

(** An array that differs from the start angles in its first element at
    most. *)
Definition on_first_line (start_angles : list float) (a : list pyval)
  : Prop :=
  exists x : float, a = PyFloat x :: map PyFloat (tl start_angles).

(** A test objective: the square of the first angle. *)
Definition square_of_first (a : list pyval) : float :=
  match a with
  | PyFloat x :: _ => (x * x)%float
  | _ => 0%float
  end.

(** * Properties *)

(** ** Loops and built-ins *)

Lemma rfor_ext {A X} (f g : A -> X -> result A) (xs : list X) (acc : A) :
  (forall a x, In x xs -> f a x = g a x) ->
  rfor xs acc f = rfor xs acc g.
Proof.
  revert acc; induction xs as [|x xs IH]; intros acc H; [reflexivity|].
  cbn [rfor]. rewrite (H acc x) by (left; reflexivity).
  destruct (g acc x) as [a|e]; cbn [rbind]; [|reflexivity].
  apply IH. intros a' x' Hin. apply H. right; exact Hin.
Qed.

Lemma range_length lo hi : length (range lo hi) = Z.to_nat (hi - lo).
Proof. unfold range. now rewrite length_map, length_seq. Qed.

Lemma range_nil lo hi : hi <= lo -> range lo hi = [].
Proof.
  intros H. unfold range.
  replace (Z.to_nat (hi - lo)) with 0%nat by lia. reflexivity.
Qed.

Lemma range_cons lo hi : lo < hi -> range lo hi = lo :: range (lo + 1) hi.
Proof.
  intros H. unfold range.
  replace (Z.to_nat (hi - lo)) with (S (Z.to_nat (hi - (lo + 1)))) by lia.
  cbn [seq map]. f_equal; [lia|].
  rewrite <- seq_shift, map_map. apply map_ext. intros k. lia.
Qed.

Lemma range_snoc lo hi : lo <= hi -> range lo (hi + 1) = range lo hi ++ [hi].
Proof.
  intros H. unfold range.
  replace (Z.to_nat (hi + 1 - lo)) with (Z.to_nat (hi - lo) + 1)%nat by lia.
  rewrite seq_app, map_app. cbn [seq map]. do 2 f_equal. lia.
Qed.

Lemma In_range lo hi k : In k (range lo hi) <-> lo <= k < hi.
Proof.
  unfold range. rewrite in_map_iff. split.
  - intros (n & <- & Hn). apply in_seq in Hn. lia.
  - intros Hk. exists (Z.to_nat (k - lo)). split; [lia|].
    apply in_seq. lia.
Qed.

Lemma getitem_app_here {A} (l1 l2 : list A) (x : A) :
  getitem (l1 ++ x :: l2) (len l1) = Ok x.
Proof.
  unfold getitem, len.
  destruct (Z.ltb_spec (Z.of_nat (length l1)) 0) as [H|_]; [lia|].
  rewrite Nat2Z.id, nth_error_app2 by lia.
  now rewrite Nat.sub_diag.
Qed.

(** A loop over the indices of a list that starts by reading the item is
    a loop over the items. *)
Lemma rfor_indices {A X} (g : A -> X -> result A) (done todo : list X)
    (acc : A) :
  rfor (range (len done) (len (done ++ todo))) acc
       (fun acc i => rbind (getitem (done ++ todo) i) (g acc))
  = rfor todo acc g.
Proof.
  revert done acc; induction todo as [|x todo IH]; intros done acc.
  - rewrite app_nil_r, range_nil by lia. reflexivity.
  - rewrite range_cons by (unfold len; rewrite length_app; cbn; lia).
    cbn [rfor]. rewrite getitem_app_here. cbn [rbind].
    destruct (g acc x) as [acc'|e]; cbn [rbind]; [|reflexivity].
    specialize (IH (done ++ [x]) acc').
    rewrite <- app_assoc in IH. cbn [app] in IH.
    replace (len (done ++ [x])) with (len done + 1) in IH
      by (unfold len; rewrite length_app; cbn; lia).
    exact IH.
Qed.

(** ** Reshaping *)

Lemma chunks_length {A} (rows cols : nat) (l : list A) :
  length (chunks rows cols l) = rows.
Proof.
  revert l; induction rows as [|rows IH]; intros l; cbn; [|rewrite IH];
    reflexivity.
Qed.

Lemma chunks_concat {A} (rows cols : nat) (l : list A) :
  length l = (rows * cols)%nat -> concat (chunks rows cols l) = l.
Proof.
  revert l; induction rows as [|rows IH]; intros l Hl; cbn.
  - destruct l; [reflexivity|discriminate].
  - rewrite IH; [apply firstn_skipn|].
    rewrite length_skipn. cbn in Hl. lia.
Qed.

Lemma chunks_rows {A} (rows cols : nat) (l : list A) :
  length l = (rows * cols)%nat ->
  Forall (fun row => length row = cols) (chunks rows cols l).
Proof.
  revert l; induction rows as [|rows IH]; intros l Hl; cbn; constructor.
  - rewrite length_firstn. cbn in Hl. lia.
  - apply IH. rewrite length_skipn. cbn in Hl. lia.
Qed.

Lemma reshape_rows_of_8 (angles : list float) (k : nat) :
  length angles = (8 * k)%nat ->
  reshape angles (len angles / 8) 8 = Ok (chunks k 8 angles).
Proof.
  intros Hl. unfold reshape, len. rewrite Hl.
  replace (Z.of_nat (8 * k) / 8) with (Z.of_nat k)
    by (rewrite Nat2Z.inj_mul, Z.mul_comm, Z.div_mul; lia).
  rewrite Nat2Z.id.
  replace (0 <=? Z.of_nat k) with true by (symmetry; apply Z.leb_le; lia).
  replace (Z.of_nat k * 8 =? Z.of_nat (8 * k)) with true
    by (symmetry; apply Z.eqb_eq; lia).
  reflexivity.
Qed.

(** ** The circuit of [RunCircuit] *)

Lemma fold_append (ms : list OpTree) (c : Circuit) :
  fold_left Circuit_append ms c = c ++ ms.
Proof.
  revert c; induction ms as [|m ms IH]; intros c; cbn.
  - now rewrite app_nil_r.
  - rewrite IH. unfold Circuit_append. now rewrite <- app_assoc.
Qed.

Lemma row_of_8 (row : list float) :
  length row = 8%nat ->
  exists a0 a1 a2 a3 a4 a5 a6 a7, row = [a0; a1; a2; a3; a4; a5; a6; a7].
Proof.
  intros H.
  do 8 (destruct row as [|? row]; [discriminate|]).
  destruct row; [|discriminate].
  do 8 eexists; reflexivity.
Qed.

Lemma blocks_of_row (row : list float) :
  length row = 8%nat ->
  EvenBlockMoments (LineQubit_range 4) (slice_to 4 row) = Ok (even_block row)
  /\ OddBlockMoments (LineQubit_range 4) (slice_from 4 row)
     = Ok (odd_block row).
Proof.
  intros H. destruct (row_of_8 row H) as (a0&a1&a2&a3&a4&a5&a6&a7&->).
  split; reflexivity.
Qed.

Lemma rfor_layers (rows : list (list float)) (c : Circuit) :
  Forall (fun row => length row = 8%nat) rows ->
  rfor rows c append_row = Ok (c ++ flat_map layer_of_row rows).
Proof.
  intros H; revert c; induction H as [|row rows Hrow _ IH]; intros c.
  - cbn. now rewrite app_nil_r.
  - cbn [rfor flat_map]. unfold append_row at 1.
    destruct (blocks_of_row row Hrow) as [-> ->]. cbn [rbind].
    rewrite !fold_append, IH. unfold layer_of_row.
    now rewrite <- !app_assoc.
Qed.

Lemma RunCircuit_circuit_layers (angle_array : list (list float)) :
  Forall (fun row => length row = 8%nat) angle_array ->
  RunCircuit_circuit angle_array = Ok (flat_map layer_of_row angle_array).
Proof.
  intros H. unfold RunCircuit_circuit.
  transitivity (rfor angle_array [] append_row);
    [|exact (@rfor_layers angle_array [] H)].
  eapply eq_trans; [|exact (rfor_indices append_row [] angle_array [])].
  apply rfor_ext. intros c i _. cbn [app].
  destruct (getitem angle_array i) as [row|e]; reflexivity.
Qed.

(** ** The order of binary64 numbers *)

Lemma pos_cont_eq (m1 m2 : positive) :
  Pos.compare_cont Eq m1 m2 = Pos.compare m1 m2.
Proof. reflexivity. Qed.

Ltac order_cases :=
  repeat match goal with
  | H : context [Z.compare ?a ?b] |- _ =>
      destruct (Z.compare_spec a b); try discriminate
  | H : context [Pos.compare_cont Eq ?a ?b] |- _ =>
      rewrite pos_cont_eq in H
  | H : context [Pos.compare ?a ?b] |- _ =>
      destruct (Pos.compare_spec a b); try discriminate
  | |- context [Z.compare ?a ?b] =>
      destruct (Z.compare_spec a b)
  | |- context [Pos.compare_cont Eq ?a ?b] =>
      rewrite pos_cont_eq
  | |- context [Pos.compare ?a ?b] =>
      destruct (Pos.compare_spec a b)
  end.

Lemma SFcompare_lt_trans (x y z : spec_float) :
  SFcompare x y = Some Lt -> SFcompare y z = Some Lt ->
  SFcompare x z = Some Lt.
Proof.
  destruct x as [sx|sx| |sx mx ex], y as [sy|sy| |sy my ey],
           z as [sz|sz| |sz mz ez];
    cbn [SFcompare]; intros Hxy Hyz; try discriminate; try reflexivity;
    repeat match goal with s : bool |- _ => destruct s end;
    try discriminate; try reflexivity;
    order_cases; cbn [CompOpp] in *;
    try discriminate; try reflexivity; subst; try lia.
Qed.

Lemma SFcompare_refl_not_lt (x : spec_float) : SFcompare x x <> Some Lt.
Proof.
  destruct x as [s|s| |s m e]; cbn [SFcompare]; try discriminate;
    destruct s; try discriminate;
    rewrite Z.compare_refl, pos_cont_eq, Pos.compare_refl; discriminate.
Qed.

Lemma SFcompare_antisym (x y : spec_float) (c : comparison) :
  SFcompare x y = Some c -> SFcompare y x = Some (CompOpp c).
Proof.
  destruct x as [sx|sx| |sx mx ex], y as [sy|sy| |sy my ey];
    cbn [SFcompare]; intros H; try discriminate;
    repeat match goal with s : bool |- _ => destruct s end;
    injection H as <-; try reflexivity;
    change (Pos.compare_cont Eq my mx) with (Pos.compare my mx);
    change (Pos.compare_cont Eq mx my) with (Pos.compare mx my);
    rewrite (Z.compare_antisym ex ey), (Pos.compare_antisym mx my);
    destruct (ex ?= ey); cbn [CompOpp]; try reflexivity;
    destruct (mx ?= my)%positive; reflexivity.
Qed.

Lemma flt_trans (a b c : float) :
  (a <? b)%float = true -> (b <? c)%float = true -> (a <? c)%float = true.
Proof.
  rewrite !ltb_spec. unfold SFltb.
  destruct (SFcompare (Prim2SF a) (Prim2SF b)) as [[]|] eqn:Hab;
    try discriminate.
  destruct (SFcompare (Prim2SF b) (Prim2SF c)) as [[]|] eqn:Hbc;
    try discriminate.
  intros _ _. now rewrite (@SFcompare_lt_trans _ _ _ Hab Hbc).
Qed.

Lemma flt_irrefl (a : float) : (a <? a)%float = false.
Proof.
  rewrite ltb_spec. unfold SFltb.
  destruct (SFcompare (Prim2SF a) (Prim2SF a)) as [[]|] eqn:H;
    try reflexivity.
  now apply SFcompare_refl_not_lt in H.
Qed.

(** For two numbers (neither is NaN), not below means above or equal. *)
Lemma fle_of_not_flt (a b : float) :
  (a =? a)%float = true -> (b =? b)%float = true ->
  (a <? b)%float = false -> (b <=? a)%float = true.
Proof.
  rewrite !eqb_spec, ltb_spec, leb_spec. unfold SFeqb, SFltb, SFleb.
  intros Ha Hb.
  destruct (SFcompare (Prim2SF a) (Prim2SF b)) as [c|] eqn:Hab.
  - rewrite (@SFcompare_antisym _ _ _ Hab). destruct c; cbn; congruence.
  - exfalso. destruct (Prim2SF a) as [sa|sa| |sa ma ea],
      (Prim2SF b) as [sb|sb| |sb mb eb]; cbn in *; try discriminate;
      repeat match goal with s : bool |- _ => destruct s end; discriminate.
Qed.

Lemma not_below_inf (a : float) :
  (a =? a)%float = true -> (a <? infinity)%float = false -> a = infinity.
Proof.
  rewrite eqb_spec, ltb_spec. unfold SFeqb, SFltb.
  change (Prim2SF infinity) with (S754_infinity false).
  intros Ha Hlt. rewrite <- (SF2Prim_Prim2SF a).
  destruct (Prim2SF a) as [s|s| |s m e]; cbn in *; try discriminate;
    destruct s; try discriminate. reflexivity.
Qed.

(** ** The running minimum *)

Lemma keep_smaller_not_below (x opt_val v : float) :
  flt x opt_val = false -> flt x (keep_smaller opt_val v) = false.
Proof.
  unfold keep_smaller, flt. intros H.
  destruct (v <? opt_val)%float eqn:Hv; [|exact H].
  destruct (x <? v)%float eqn:Hx; [|reflexivity].
  rewrite (@flt_trans _ _ _ Hx Hv) in H. discriminate.
Qed.

Lemma fold_keep_smaller_not_below (vals : list float) :
  forall (opt_val x : float),
  flt x opt_val = false ->
  flt x (fold_left keep_smaller vals opt_val) = false.
Proof.
  induction vals as [|v vals IH]; intros opt_val x H; cbn [fold_left].
  - exact H.
  - apply IH. now apply keep_smaller_not_below.
Qed.

Lemma fold_keep_smaller_lower (vals : list float) :
  forall (opt_val : float),
  Forall (fun v => flt v (fold_left keep_smaller vals opt_val) = false) vals.
Proof.
  induction vals as [|v vals IH]; intros opt_val; cbn [fold_left];
    constructor; [|apply IH].
  apply fold_keep_smaller_not_below.
  unfold keep_smaller, flt.
  destruct (v <? opt_val)%float eqn:Hv; [apply flt_irrefl | exact Hv].
Qed.

Lemma fold_keep_smaller_choice (vals : list float) :
  forall (opt_val : float),
  fold_left keep_smaller vals opt_val = opt_val
  \/ In (fold_left keep_smaller vals opt_val) vals.
Proof.
  induction vals as [|v vals IH]; intros opt_val; cbn [fold_left].
  - left; reflexivity.
  - destruct (IH (keep_smaller opt_val v)) as [H|H].
    + rewrite H. unfold keep_smaller.
      destruct (flt v opt_val); [right; left; reflexivity | left; reflexivity].
    + right; right; exact H.
Qed.

(** No value beats [best_of vals], and [best_of vals] is one of the
    values unless it is still the initial infinity. *)
Lemma best_of_lower (vals : list float) :
  Forall (fun v => flt v (best_of vals) = false) vals
  /\ (best_of vals = float_inf \/ In (best_of vals) vals).
Proof.
  split; [apply fold_keep_smaller_lower | apply fold_keep_smaller_choice].
Qed.

(** When no value is NaN, [best_of] is the least of the values. *)
Lemma best_of_least (vals : list float) :
  vals <> [] ->
  Forall (fun v => (v =? v)%float = true) vals ->
  In (best_of vals) vals
  /\ Forall (fun v => (best_of vals <=? v)%float = true) vals.
Proof.
  intros Hne Hnum.
  destruct (best_of_lower vals) as [Hlow Hin].
  assert (Hmem : In (best_of vals) vals).
  { destruct Hin as [Hinf|Hin]; [|exact Hin].
    destruct vals as [|v vals]; [congruence|].
    inversion Hlow as [|? ? Hv _]; subst.
    inversion Hnum as [|? ? Hvnum _]; subst.
    rewrite Hinf in Hv |- *. left.
    apply not_below_inf; assumption. }
  split; [exact Hmem|].
  assert (Hb : (best_of vals =? best_of vals)%float = true).
  { rewrite Forall_forall in Hnum. now apply Hnum. }
  rewrite Forall_forall in *. intros v Hv.
  apply fle_of_not_flt; [apply Hnum; exact Hv | exact Hb |].
  apply Hlow; exact Hv.
Qed.

(** ** The run of [GeneratePlot] *)

Section ScriptProperties.

Variables StateVec world TrialResult : Type.
Variable builtin_print : Circuit -> world -> world.
Variable Simulator_simulate : Circuit -> option Z -> TrialResult.
Variable state_vector : TrialResult -> StateVec.
Variable random_superposition : Z -> world -> StateVec * world.
Variable random_uniform : float -> float -> Z -> world -> list float * world.
Variable linalg_norm : StateVec -> float.
Variable ndarray_sub : StateVec -> StateVec -> StateVec.
Variable minimize :
  (list float -> M world float) -> list float -> list (float * float) ->
  world -> OptimizeResult * world.
Variable plt_plot : list Z -> list float -> M world unit.
Variable plt_title plt_xlabel plt_ylabel : string -> world -> world.
Variable plt_show : world -> world.

Local Abbreviation RunCircuit :=
  (RunCircuit builtin_print Simulator_simulate state_vector).
Local Abbreviation Objective :=
  (Objective builtin_print Simulator_simulate state_vector
             linalg_norm ndarray_sub).
Local Abbreviation restart :=
  (restart builtin_print Simulator_simulate state_vector random_uniform
           linalg_norm ndarray_sub minimize).
Local Abbreviation layer :=
  (layer builtin_print Simulator_simulate state_vector random_uniform
         linalg_norm ndarray_sub minimize).
Local Abbreviation GeneratePlot :=
  (GeneratePlot builtin_print Simulator_simulate state_vector
                random_superposition random_uniform linalg_norm ndarray_sub
                minimize plt_plot plt_title plt_xlabel plt_ylabel plt_show).
Local Abbreviation trace :=
  (trace builtin_print Simulator_simulate state_vector
         random_superposition random_uniform linalg_norm ndarray_sub
         minimize plt_plot plt_title plt_xlabel plt_ylabel plt_show).
Local Abbreviation restart_calls :=
  (restart_calls builtin_print Simulator_simulate state_vector
                 linalg_norm ndarray_sub).
Local Abbreviation layer_calls :=
  (layer_calls builtin_print Simulator_simulate state_vector
               linalg_norm ndarray_sub).
Local Abbreviation Run := (Run StateVec world).
Local Abbreviation Call := (Call StateVec world).

Lemma bounds_of_range (L : Z) :
  map (fun _ : Z => (0%float, (2 * math_pi)%float)) (range 0 (8 * L))
  = bounds_of L.
Proof.
  unfold bounds_of, range. rewrite map_map, Z.sub_0_r.
  generalize (Z.to_nat (8 * L)) as n. intros n.
  generalize 0%nat as k.
  induction n as [|n IH]; intros k; cbn; [reflexivity|].
  now rewrite IH.
Qed.

(** One restart: a start point is drawn, the solver runs from it, the
    smaller value is kept. *)
Lemma restart_step (phi : StateVec) (L : Z) (bounds : list (float * float))
    (opt_val : float) (k : Z) (r : Run) :
  restart phi L bounds opt_val k r
  = let su := random_uniform 0 (2 * math_pi) (8 * L) (ext r) in
    let om := minimize (Objective phi) (fst su) bounds (snd su) in
    (Ok (keep_smaller opt_val (res_fun (fst om))),
     {| ext := snd om;
        calls := calls r ++
          [ call_uniform 0 (2 * math_pi) (8 * L) (fst su);
            call_minimize (Objective phi) (fst su) bounds (fst om) ] |}).
Proof.
  unfold restart, bind, np_random_uniform, scipy_minimize, logged, ret.
  destruct (random_uniform 0 (2 * math_pi) (8 * L) (ext r)) as [start w1].
  cbn [ext calls fst snd].
  destruct (minimize (Objective phi) start bounds w1) as [opt w2].
  cbn [ext calls fst snd]. rewrite <- app_assoc. reflexivity.
Qed.

(** The restart loop: every iteration draws a start point, runs the
    solver from it and keeps the smaller value. *)
Lemma restarts_run (phi : StateVec) (L : Z) (ks : list Z) :
  forall (opt_val : float) (r : Run),
  exists (rs : list (list float * OptimizeResult)) (r' : Run),
    for_ ks opt_val (restart phi L (bounds_of L)) r
    = (Ok (fold_left keep_smaller (map (fun x => res_fun (snd x)) rs)
                     opt_val), r')
    /\ length rs = length ks
    /\ calls r' = calls r ++ flat_map (restart_calls phi L) rs.
Proof.
  induction ks as [|k ks IH]; intros opt_val r.
  - exists [], r. cbn [for_ map fold_left flat_map length]. unfold ret.
    now rewrite app_nil_r.
  - cbn [for_]. unfold bind at 1. rewrite restart_step. cbv beta iota zeta.
    set (su := random_uniform 0 (2 * math_pi) (8 * L) (ext r)).
    set (om := minimize (Objective phi) (fst su) (bounds_of L) (snd su)).
    match goal with
    | |- context [for_ ks ?v _ ?r1] =>
        destruct (IH v r1) as (rs & r' & Hrun & Hlen & Hcalls)
    end.
    exists ((fst su, fst om) :: rs), r'. split; [|split].
    + rewrite Hrun. reflexivity.
    + cbn [length]. now rewrite Hlen.
    + rewrite Hcalls. cbn [calls flat_map]. unfold restart_calls at 2.
      cbn [fst snd]. rewrite <- !app_assoc. reflexivity.
Qed.

(** One swept layer count: ten restarts, and the smallest final value is
    appended to [best_vals]. *)
Lemma layer_run (phi : StateVec) (best_vals : list float) (L : Z) (r : Run) :
  exists (rs : list (list float * OptimizeResult)) (r' : Run),
    layer phi best_vals L r
    = (Ok (best_vals ++ [best_of (map (fun x => res_fun (snd x)) rs)]), r')
    /\ length rs = 10%nat
    /\ calls r' = calls r ++ flat_map (restart_calls phi L) rs.
Proof.
  unfold layer. cbv zeta. rewrite bounds_of_range.
  destruct (restarts_run phi L (range 0 10) float_inf r)
    as (rs & r' & Hrun & Hlen & Hcalls).
  exists rs, r'. split; [|split].
  - unfold bind. rewrite Hrun. reflexivity.
  - rewrite Hlen. reflexivity.
  - exact Hcalls.
Qed.

(** The sweep over layer counts. *)
Lemma sweep_run (phi : StateVec) (Ls : list Z) :
  forall (best_vals : list float) (r : Run),
  exists (lys : list Layer) (r' : Run),
    for_ Ls best_vals (layer phi) r
    = (Ok (best_vals ++ map layer_best lys), r')
    /\ map layer_L lys = Ls
    /\ Forall (fun ly => length (layer_restarts ly) = 10%nat) lys
    /\ calls r' = calls r ++ flat_map (layer_calls phi) lys.
Proof.
  induction Ls as [|L Ls IH]; intros best_vals r.
  - exists [], r. cbn [for_ map flat_map]. unfold ret.
    rewrite !app_nil_r. repeat split. constructor.
  - cbn [for_]. unfold bind at 1.
    destruct (layer_run phi best_vals L r) as (rs & r1 & Hrun & Hlen & Hc).
    rewrite Hrun.
    destruct (IH (best_vals ++ [best_of (map (fun x => res_fun (snd x)) rs)])
                 r1) as (lys & r' & Hrun' & HL & H10 & Hc').
    exists ({| layer_L := L; layer_restarts := rs |} :: lys), r'.
    split; [|split; [|split]].
    + rewrite Hrun'. rewrite <- app_assoc. reflexivity.
    + cbn [map layer_L]. now rewrite HL.
    + constructor; [exact Hlen | exact H10].
    + rewrite Hc', Hc. cbn [flat_map]. unfold layer_calls at 2.
      cbn [layer_L layer_restarts]. rewrite <- !app_assoc. reflexivity.
Qed.

(** The whole run: the target is drawn, the layer counts are swept, the
    plot is requested; what follows the plot call is pyplot decoration. *)
Lemma GeneratePlot_run (max_L : Z) (r : Run) :
  exists (phi : StateVec) (lys : list Layer) (rest : list Call),
    map layer_L lys = range 2 (max_L + 1)
    /\ Forall (fun ly => length (layer_restarts ly) = 10%nat) lys
    /\ Forall (@is_pyplot_call StateVec world) rest
    /\ calls (snd (GeneratePlot max_L r))
       = calls r
         ++ call_random_superposition 16 phi
            :: flat_map (layer_calls phi) lys
         ++ call_plot (range 1 (max_L + 1)) (map layer_best lys) :: rest.
Proof.
  unfold GeneratePlot. cbv zeta.
  unfold bind at 1. unfold cirq_testing_random_superposition, logged.
  destruct (random_superposition 16 (ext r)) as [phi w1].
  unfold bind at 1.
  match goal with
  | |- context [for_ _ [] _ ?r1] =>
      destruct (sweep_run phi (range 2 (max_L + 1)) [] r1)
        as (lys & r2 & Hrun & HL & H10 & Hc)
  end.
  rewrite Hrun. cbn [app].
  unfold bind at 1. unfold pyplot_plot.
  destruct (plt_plot (range 1 (max_L + 1)) (map layer_best lys) (ext r2))
    as [[[]|e] w3].
  - exists phi, lys,
      [call_title title_string; call_xlabel "Circuit Layers"%string;
       call_ylabel "Distance to target"%string; call_show].
    split; [exact HL|]. split; [exact H10|]. split.
    + repeat constructor.
    + unfold bind, pyplot, logged. cbn [ext calls snd].
      rewrite Hc. cbn [calls]. rewrite <- !app_assoc. reflexivity.
  - exists phi, lys, []. split; [exact HL|]. split; [exact H10|]. split.
    + constructor.
    + cbn [snd calls]. rewrite Hc. cbn [calls].
      rewrite <- !app_assoc. reflexivity.
Qed.

(** *** Every dealing with the outside world is a logged call *)

Local Abbreviation effect :=
  (effect random_superposition random_uniform minimize plt_plot plt_title
          plt_xlabel plt_ylabel plt_show).
Local Abbreviation returns :=
  (returns random_superposition random_uniform minimize).
Local Abbreviation replay :=
  (replay random_superposition random_uniform minimize plt_plot plt_title
          plt_xlabel plt_ylabel plt_show).
Local Abbreviation genuine :=
  (genuine random_superposition random_uniform minimize plt_plot plt_title
           plt_xlabel plt_ylabel plt_show).
Local Abbreviation accounted :=
  (accounted random_superposition random_uniform minimize plt_plot plt_title
             plt_xlabel plt_ylabel plt_show).

Lemma replay_app (cs1 cs2 : list Call) (w : world) :
  replay (cs1 ++ cs2) w = replay cs2 (replay cs1 w).
Proof.
  revert w; induction cs1 as [|c cs1 IH]; intros w; cbn; [reflexivity|].
  apply IH.
Qed.

Lemma genuine_app (cs1 cs2 : list Call) (w : world) :
  genuine cs1 w -> genuine cs2 (replay cs1 w) -> genuine (cs1 ++ cs2) w.
Proof.
  revert w; induction cs1 as [|c cs1 IH]; intros w H1 H2; cbn in *.
  - exact H2.
  - destruct H1 as [Hc H1]. split; [exact Hc|]. now apply IH.
Qed.

Lemma accounted_ret {A} (a : A) : accounted (ret a).
Proof.
  intros r. exists []. cbn. rewrite app_nil_r. repeat split.
Qed.

Lemma accounted_bind {A B} (m : M Run A) (k : A -> M Run B) :
  accounted m -> (forall a, accounted (k a)) -> accounted (bind m k).
Proof.
  intros Hm Hk r. unfold bind.
  destruct (Hm r) as (new1 & Hc1 & He1 & Hg1).
  destruct (m r) as [[a|e] r1]; cbn [snd] in *.
  - destruct (Hk a r1) as (new2 & Hc2 & He2 & Hg2).
    exists (new1 ++ new2). split; [|split].
    + rewrite Hc2, Hc1. now rewrite app_assoc.
    + rewrite He2, He1. now rewrite replay_app.
    + apply genuine_app; [exact Hg1|]. now rewrite <- He1.
  - exists new1. repeat split; assumption.
Qed.

Lemma accounted_for {A X} (xs : list X) (body : A -> X -> M Run A) :
  (forall acc x, accounted (body acc x)) ->
  forall acc, accounted (for_ xs acc body).
Proof.
  intros Hbody. induction xs as [|x xs IH]; intros acc; cbn [for_].
  - apply accounted_ret.
  - apply accounted_bind; [apply Hbody | exact IH].
Qed.

Lemma accounted_logged {A} (f : world -> A * world) (c : A -> Call) :
  (forall w, effect (c (fst (f w))) w = snd (f w)) ->
  (forall w, returns (c (fst (f w))) w) ->
  accounted (logged f c).
Proof.
  intros He Hr r. unfold logged.
  specialize (He (ext r)). specialize (Hr (ext r)).
  destruct (f (ext r)) as [a w']. cbn [fst snd ext calls] in *.
  exists [c a]. cbn. rewrite He. repeat split. exact Hr.
Qed.

Lemma accounted_GeneratePlot (max_L : Z) : accounted (GeneratePlot max_L).
Proof.
  unfold GeneratePlot. cbv zeta.
  apply accounted_bind;
    [apply accounted_logged; intros w; reflexivity|intros phi].
  apply accounted_bind.
  { apply accounted_for. intros best_vals L. unfold layer. cbv zeta.
    apply accounted_bind; [|intros v; apply accounted_ret].
    apply accounted_for. intros opt_val k. unfold restart.
    apply accounted_bind;
      [apply accounted_logged; intros w; reflexivity|intros start].
    apply accounted_bind;
      [apply accounted_logged; intros w; reflexivity|intros opt].
    apply accounted_ret. }
  intros best_vals. apply accounted_bind.
  { intros r. unfold pyplot_plot.
    exists [call_plot (range 1 (max_L + 1)) best_vals].
    destruct (plt_plot (range 1 (max_L + 1)) best_vals (ext r))
      as [res w'] eqn:Hp.
    cbn. rewrite Hp. repeat split. }
  intros _.
  repeat (apply accounted_bind;
          [apply accounted_logged; intros w; exact eq_refl || exact I
          |intros _]).
  apply accounted_logged; intros w; exact eq_refl || exact I.
Qed.

(** The calls of a run, made one after the other from the initial
    world, return what the run logged and leave the world the run ends
    in. *)
Lemma trace_genuine (max_L : Z) (w : world) :
  genuine (trace max_L w) w
  /\ ext (snd (GeneratePlot max_L {| ext := w; calls := [] |}))
     = replay (trace max_L w) w.
Proof.
  destruct (accounted_GeneratePlot max_L {| ext := w; calls := [] |})
    as (new & Hc & He & Hg).
  cbn [calls ext app] in *.
  change (trace max_L w)
    with (calls (snd (GeneratePlot max_L {| ext := w; calls := [] |}))).
  rewrite Hc. split; [exact Hg | exact He].
Qed.

(** *** [RunCircuit] and [Objective] *)

Lemma RunCircuit_on_rows (angle_array : list (list float)) (w : world) :
  Forall (fun row => length row = 8%nat) angle_array ->
  RunCircuit angle_array w
  = (Ok (state_vector
           (Simulator_simulate (flat_map layer_of_row angle_array) None)),
     builtin_print (flat_map layer_of_row angle_array) w).
Proof.
  intros H. unfold RunCircuit, bind, lift, ret.
  rewrite (RunCircuit_circuit_layers H). reflexivity.
Qed.

(** C5. For an L x 8 angle array, the circuit that [RunCircuit] builds on
    the line qubits 0..3 is, row after row, the even block (a moment of
    Rz rotations by the first four angles of the row, then CZ on the pairs
    (0,1), (0,2), (0,3), (1,2), (1,3), (2,3)) followed by the odd block (a
    moment of Rx rotations by the last four angles); the circuit is
    printed, and the value returned is the state vector of the simulation
    started without an initial state (cirq's all-zeros default), not a
    measurement. *)
Theorem RunCircuit_builds_layers (angle_array : list (list float))
    (w : world) :
  Forall (fun row => length row = 8%nat) angle_array ->
  LineQubit_range 4 = [q_ 0; q_ 1; q_ 2; q_ 3]
  /\ RunCircuit_circuit angle_array
     = Ok (flat_map (fun row => even_block row ++ odd_block row) angle_array)
  /\ RunCircuit angle_array w
     = (Ok (state_vector
              (Simulator_simulate
                 (flat_map (fun row => even_block row ++ odd_block row)
                           angle_array) None)),
        builtin_print
          (flat_map (fun row => even_block row ++ odd_block row) angle_array)
          w).
Proof.
  intros H. split; [reflexivity|]. split.
  - exact (RunCircuit_circuit_layers H).
  - exact (RunCircuit_on_rows w H).
Qed.

(** C4. For a flat angle vector of length 8*k with k positive, the
    objective value is the norm of the difference between the target [phi]
    and the state vector that [RunCircuit] returns on the k x 8 array whose
    rows, read one after the other, are the vector. *)
Theorem Objective_is_distance (phi : StateVec) (angles : list float)
    (k : nat) (w : world) :
  (0 < k)%nat ->
  length angles = (8 * k)%nat ->
  exists (angle_array : list (list float)) (out : StateVec) (w' : world),
    length angle_array = k
    /\ Forall (fun row => length row = 8%nat) angle_array
    /\ concat angle_array = angles
    /\ reshape angles (len angles / 8) 8 = Ok angle_array
    /\ RunCircuit angle_array w = (Ok out, w')
    /\ Objective phi angles w = (Ok (linalg_norm (ndarray_sub phi out)), w').
Proof.
  intros _ Hlen.
  assert (Hrows : Forall (fun row : list float => length row = 8%nat)
                         (chunks k 8 angles))
    by (apply chunks_rows; lia).
  eexists (chunks k 8 angles), _, _.
  split; [apply chunks_length|]. split; [exact Hrows|].
  split; [apply chunks_concat; lia|].
  split; [exact (@reshape_rows_of_8 _ _ Hlen)|].
  split; [apply (RunCircuit_on_rows w Hrows)|].
  unfold Objective, bind, lift, ret.
  rewrite (@reshape_rows_of_8 _ _ Hlen), (RunCircuit_on_rows w Hrows).
  reflexivity.
Qed.

(** *** [GeneratePlot] *)

Lemma fresh_run (max_L : Z) (w : world) :
  exists (phi : StateVec) (lys : list Layer) (rest : list Call),
    map layer_L lys = range 2 (max_L + 1)
    /\ Forall (fun ly => length (layer_restarts ly) = 10%nat) lys
    /\ Forall (@is_pyplot_call StateVec world) rest
    /\ trace max_L w
       = call_random_superposition 16 phi
           :: flat_map (layer_calls phi) lys
           ++ call_plot (range 1 (max_L + 1)) (map layer_best lys) :: rest.
Proof.
  destruct (GeneratePlot_run max_L {| ext := w; calls := [] |})
    as (phi & lys & rest & HL & H10 & Hrest & Hc).
  exists phi, lys, rest. repeat split; assumption.
Qed.

(** C1, as the code has it.  For every [max_L >= 2] the plot call
    receives the x-values 1, 2, ..., max_L, which are [max_L] points, and
    [max_L - 1] y-values, one per swept layer count 2, ..., max_L: the two
    sequences differ in length, and the first x-value is 1 although the
    first y-value was optimized at layer count 2. *)
Theorem GeneratePlot_plot_lengths_differ (max_L : Z) (w : world) :
  2 <= max_L ->
  exists (phi : StateVec) (lys : list Layer) (rest : list Call),
    trace max_L w
    = call_random_superposition 16 phi
        :: flat_map (layer_calls phi) lys
        ++ call_plot (range 1 (max_L + 1)) (map layer_best lys) :: rest
    /\ map layer_L lys = range 2 (max_L + 1)
    /\ range 1 (max_L + 1) = 1 :: range 2 (max_L + 1)
    /\ len (range 1 (max_L + 1)) = max_L
    /\ len (map layer_best lys) = max_L - 1.
Proof.
  intros Hmax.
  destruct (fresh_run max_L w) as (phi & lys & rest & HL & _ & _ & Htr).
  exists phi, lys, rest. split; [exact Htr|]. split; [exact HL|].
  split; [apply range_cons; lia|]. unfold len. split.
  - rewrite range_length. lia.
  - rewrite length_map, <- (length_map layer_L), HL, range_length. lia.
Qed.

(** C2. For every [max_L >= 2] the run consists of the draw of the target,
    then the ten restarts of each layer count L = 2, 3, ..., max_L in
    increasing order, then the plot call; [best_vals], the second argument
    of the plot call, holds one best value per layer count, so it has
    [max_L - 1] entries. *)
Theorem GeneratePlot_sweeps_layers (max_L : Z) (w : world) :
  2 <= max_L ->
  exists (phi : StateVec) (lys : list Layer) (rest : list Call),
    trace max_L w
    = call_random_superposition 16 phi
        :: flat_map (layer_calls phi) lys
        ++ call_plot (range 1 (max_L + 1)) (map layer_best lys) :: rest
    /\ map layer_L lys
       = map (fun k => 2 + Z.of_nat k) (seq 0 (Z.to_nat (max_L - 1)))
    /\ Forall (fun ly => length (layer_restarts ly) = 10%nat) lys
    /\ Forall (@is_pyplot_call StateVec world) rest
    /\ len (map layer_best lys) = max_L - 1.
Proof.
  intros Hmax.
  destruct (fresh_run max_L w) as (phi & lys & rest & HL & H10 & Hr & Htr).
  exists phi, lys, rest. split; [exact Htr|]. split; [|split; [|split]].
  - rewrite HL. unfold range. do 2 f_equal. lia.
  - exact H10.
  - exact Hr.
  - unfold len.
    rewrite length_map, <- (length_map layer_L), HL, range_length. lia.
Qed.

Lemma bounds_of_all (L : Z) :
  0 <= L ->
  len (bounds_of L) = 8 * L
  /\ Forall (fun b => b = (0%float, (2 * math_pi)%float)) (bounds_of L).
Proof.
  intros HL. unfold bounds_of, len. split.
  - rewrite repeat_length. lia.
  - apply Forall_forall. intros b Hb. exact (repeat_spec _ _ _ Hb).
Qed.

(** C3. The layer counts swept are L = 2, ..., max_L, each of them once,
    and each of them has exactly ten restarts; each restart draws its
    start point by a call of its own to
    [np.random.uniform(0, 2*pi, 8*L)], made in the world that the calls
    before it left, and runs the solver on [Objective] from that point
    under bounds that are 8*L pairs [(0, 2*pi)]; the value recorded for L
    is the least of the ten final objective values that the solver
    returned: none of them is below it, it is one of them unless all ten
    fail the test [opt.fun < inf], and when none of the ten is NaN it is
    one of them and at most each of them. *)
Theorem GeneratePlot_best_of_ten_restarts (max_L : Z) (w : world) :
  exists (phi : StateVec) (lys : list Layer) (rest : list Call),
    trace max_L w
    = call_random_superposition 16 phi
        :: flat_map (layer_calls phi) lys
        ++ call_plot (range 1 (max_L + 1)) (map layer_best lys) :: rest
    /\ genuine (trace max_L w) w
    /\ map layer_L lys = range 2 (max_L + 1)
    /\ (forall L : Z,
          2 <= L <= max_L ->
          exists ly : Layer,
            In ly lys /\ layer_L ly = L
            /\ nth_error (map layer_best lys) (Z.to_nat (L - 2))
               = Some (layer_best ly))
    /\ Forall
         (fun ly =>
            2 <= layer_L ly <= max_L
            /\ length (layer_restarts ly) = 10%nat
            /\ layer_calls phi ly
               = flat_map
                   (fun r =>
                      [ call_uniform 0 (2 * math_pi) (8 * layer_L ly) (fst r);
                        call_minimize (Objective phi) (fst r)
                          (bounds_of (layer_L ly)) (snd r) ])
                   (layer_restarts ly)
            /\ len (bounds_of (layer_L ly)) = 8 * layer_L ly
            /\ Forall (fun b => b = (0%float, (2 * math_pi)%float))
                      (bounds_of (layer_L ly))
            /\ layer_best ly = best_of (layer_vals ly)
            /\ Forall (fun v => flt v (layer_best ly) = false) (layer_vals ly)
            /\ (layer_best ly = float_inf
                \/ In (layer_best ly) (layer_vals ly))
            /\ (Forall (fun v => (v =? v)%float = true) (layer_vals ly) ->
                In (layer_best ly) (layer_vals ly)
                /\ Forall (fun v => (layer_best ly <=? v)%float = true)
                          (layer_vals ly)))
         lys.
Proof.
  destruct (fresh_run max_L w) as (phi & lys & rest & HL & H10 & _ & Htr).
  exists phi, lys, rest. split; [exact Htr|].
  split; [exact (proj1 (trace_genuine max_L w))|].
  split; [exact HL|]. split.
  { intros L HLr.
    assert (Hnth : nth_error (map layer_L lys) (Z.to_nat (L - 2)) = Some L).
    { rewrite HL. unfold range.
      rewrite nth_error_map, nth_error_seq.
      replace (Z.to_nat (L - 2) <? Z.to_nat (max_L + 1 - 2))%nat with true
        by (symmetry; apply Nat.ltb_lt; lia).
      cbn [option_map Nat.add]. f_equal. lia. }
    rewrite nth_error_map in Hnth.
    destruct (nth_error lys (Z.to_nat (L - 2))) as [ly|] eqn:Hly;
      [|discriminate].
    injection Hnth as HlyL. exists ly.
    split; [exact (nth_error_In _ _ Hly)|]. split; [exact HlyL|].
    rewrite nth_error_map, Hly. reflexivity. }
  apply Forall_forall. intros ly Hly.
  assert (Hrange : 2 <= layer_L ly < max_L + 1).
  { apply In_range. rewrite <- HL. now apply in_map. }
  assert (Hten : length (layer_restarts ly) = 10%nat).
  { rewrite Forall_forall in H10. now apply H10. }
  destruct (@bounds_of_all (layer_L ly)) as [Hblen Hball]; [lia|].
  destruct (best_of_lower (layer_vals ly)) as [Hlow Hin].
  split; [lia|]. split; [exact Hten|]. split; [reflexivity|].
  split; [exact Hblen|]. split; [exact Hball|]. split; [reflexivity|].
  split; [exact Hlow|]. split; [exact Hin|].
  intros Hnum. apply best_of_least; [|exact Hnum].
  unfold layer_vals. intros Hnil. apply (f_equal (@length float)) in Hnil.
  rewrite length_map, Hten in Hnil. discriminate.
Qed.

Lemma layer_calls_keep_target (phi : StateVec) (lys : list Layer) :
  Forall (keeps_target builtin_print Simulator_simulate state_vector
            linalg_norm ndarray_sub phi)
         (flat_map (layer_calls phi) lys).
Proof.
  apply Forall_forall. intros c Hc.
  apply in_flat_map in Hc. destruct Hc as (ly & _ & Hc).
  unfold layer_calls in Hc. apply in_flat_map in Hc.
  destruct Hc as (r & _ & [<-|[<-|[]]]); cbn; reflexivity.
Qed.

(** C7. In a run of [GeneratePlot] the target state is drawn exactly
    once, by the first call of the run, before any layer count is swept;
    no later call draws it again, and every solver run of every layer
    count minimizes [Objective] closed over that same target. *)
Theorem GeneratePlot_single_target (max_L : Z) (w : world) :
  exists (phi : StateVec) (later : list Call),
    trace max_L w = call_random_superposition 16 phi :: later
    /\ Forall (fun c =>
                 match c with
                 | call_random_superposition _ _ => False
                 | call_minimize fn _ _ _ => fn = Objective phi
                 | _ => True
                 end) later.
Proof.
  destruct (fresh_run max_L w) as (phi & lys & rest & _ & _ & Hrest & Htr).
  eexists phi, _. split; [exact Htr|].
  apply Forall_app. split; [exact (layer_calls_keep_target phi lys)|].
  constructor; [exact I|].
  revert Hrest. apply Forall_impl. intros [] H; cbn in H |- *;
    (exact I || contradiction).
Qed.

(** C8. Every value that [GeneratePlot] hands to the plot call is either
    the initial [float('inf')] or the final objective value [opt.fun] that
    a call of scipy's [minimize] on [Objective] returned during the run:
    the recorded values come from that solver alone.  The run deals with
    the outside world through its logged calls only (the draw of the
    target, the draws of start points, [minimize], pyplot): replaying
    them from the initial world gives the values the run saw and the world
    it ends in, so the objective is evaluated nowhere but inside
    [minimize]; a call of [GridSearch] would evaluate it, and print,
    outside. *)
Theorem GeneratePlot_values_from_minimize (max_L : Z) (w : world) :
  exists (phi : StateVec),
    genuine (trace max_L w) w
    /\ ext (snd (GeneratePlot max_L {| ext := w; calls := [] |}))
       = replay (trace max_L w) w
    /\ forall (xs : list Z) (ys : list float),
         In (call_plot xs ys) (trace max_L w) ->
         Forall
           (fun y =>
              y = float_inf
              \/ exists (x0 : list float) (bounds : list (float * float))
                        (opt : OptimizeResult),
                   In (call_minimize (Objective phi) x0 bounds opt)
                      (trace max_L w)
                   /\ y = res_fun opt)
           ys.
Proof.
  destruct (fresh_run max_L w) as (phi & lys & rest & _ & _ & Hrest & Htr).
  exists phi. split; [exact (proj1 (trace_genuine max_L w))|].
  split; [exact (proj2 (trace_genuine max_L w))|].
  intros xs ys Hplot. rewrite Htr in Hplot |- *.
  assert (Hys : ys = map layer_best lys).
  { destruct Hplot as [Heq|Hplot]; [discriminate|].
    apply in_app_or in Hplot. destruct Hplot as [Hplot|[Heq|Hplot]].
    - apply in_flat_map in Hplot. destruct Hplot as (ly & _ & Hc).
      unfold layer_calls in Hc. apply in_flat_map in Hc.
      destruct Hc as (r & _ & [Heq|[Heq|[]]]); discriminate.
    - now injection Heq.
    - rewrite Forall_forall in Hrest. destruct (Hrest _ Hplot). }
  subst ys. apply Forall_forall. intros y Hy.
  apply in_map_iff in Hy. destruct Hy as (ly & <- & Hly).
  destruct (best_of_lower (layer_vals ly)) as [_ [Hinf|Hin]];
    [left; exact Hinf|right].
  unfold layer_vals in Hin. apply in_map_iff in Hin.
  destruct Hin as (r & Hr & Hrin).
  exists (fst r), (bounds_of (layer_L ly)), (snd r). split.
  - right. apply in_or_app. left.
    apply in_flat_map. exists ly. split; [exact Hly|].
    unfold layer_calls. apply in_flat_map. exists r. split; [exact Hrin|].
    right; left; reflexivity.
  - symmetry. exact Hr.
Qed.

End ScriptProperties.

(** ** The carry step of [GridSearch] *)

Lemma len_app {A} (l1 l2 : list A) : len (l1 ++ l2) = len l1 + len l2.
Proof. unfold len. rewrite length_app. lia. Qed.

Lemma len_cons {A} (a : A) (l : list A) : len (a :: l) = 1 + len l.
Proof. unfold len. cbn [length]. lia. Qed.

Lemma len_nonneg {A} (l : list A) : 0 <= len l.
Proof. unfold len. lia. Qed.

Lemma set_nth_app_here {A} (l1 l2 : list A) (x v : A) :
  set_nth (l1 ++ x :: l2) (length l1) v = Ok (l1 ++ v :: l2).
Proof.
  induction l1 as [|a l1 IH]; cbn [app length set_nth]; [reflexivity|].
  rewrite IH. reflexivity.
Qed.

Lemma setitem_app_here {A} (l1 l2 : list A) (x v : A) :
  setitem (l1 ++ x :: l2) (len l1) v = Ok (l1 ++ v :: l2).
Proof.
  unfold setitem, len.
  destruct (Z.ltb_spec (Z.of_nat (length l1)) 0) as [H|_]; [lia|].
  rewrite Nat2Z.id. apply set_nth_app_here.
Qed.

Lemma getitem_in_range {A} (l : list A) (i : Z) :
  0 <= i < len l -> exists a, getitem l i = Ok a.
Proof.
  unfold getitem, len. intros H.
  destruct (Z.ltb_spec i 0) as [Hi|_]; [lia|].
  destruct (nth_error l (Z.to_nat i)) as [a|] eqn:Hn; [now exists a|].
  apply nth_error_None in Hn. lia.
Qed.

Lemma floats_end (x : float) (fl : list float) :
  exists (mid : list pyval) (last : float),
    map PyFloat (x :: fl) = mid ++ [PyFloat last].
Proof.
  destruct (@exists_last _ (x :: fl)) as (front & l & ->); [discriminate|].
  exists (map PyFloat front), l. now rewrite map_app.
Qed.

Section GridSearchProperties.

Variable S : Type.
Variable start_angles : list float.
Variables width resolution : float.
Variable Objective : list pyval -> M S float.

Local Abbreviation carry_from := (carry start_angles width resolution).
Local Abbreviation cond := (gs_cond start_angles width).
Local Abbreviation body :=
  (gs_body start_angles width resolution Objective).
Local Abbreviation while :=
  (gs_while start_angles width resolution Objective).

(** From an index whose element and all later ones are floats, the carry
    loop leaves the earlier elements alone, raises nothing, and leaves a
    float in the last place. *)
Lemma carry_floats (fl : list float) :
  forall (x : float) (done : list pyval),
  len start_angles = len (done ++ map PyFloat (x :: fl)) ->
  exists (mid : list pyval) (last : float),
    carry_from (range (len done) (len (done ++ map PyFloat (x :: fl))))
          (done ++ map PyFloat (x :: fl))
    = Ok (done ++ mid ++ [PyFloat last]).
Proof.
  induction fl as [|y fl IH]; intros x done Hlen.
  - cbn [map] in *. rewrite len_app, len_cons in *.
    change (len (@nil pyval)) with 0 in *.
    rewrite range_cons, range_nil by lia. cbn [carry].
    rewrite getitem_app_here. cbn [rbind].
    destruct (@getitem_in_range _ start_angles (len done)) as [s_i ->];
      [pose proof (len_nonneg done); lia|].
    cbn [rbind py_gt].
    exists [], x. cbn [app].
    destruct (fgt x (s_i + width * f1_01)); [|reflexivity].
    rewrite len_app, len_cons. change (len (@nil pyval)) with 0.
    replace (len done =? len done + (1 + 0) - 1) with true
      by (symmetry; apply Z.eqb_eq; lia).
    reflexivity.
  - pose proof (len_nonneg done) as Hd.
    pose proof (len_nonneg (map PyFloat fl)) as Hf.
    assert (Hn : len (done ++ map PyFloat (x :: y :: fl))
                 = len done + 2 + len (map PyFloat fl))
      by (cbn [map]; rewrite len_app, !len_cons; lia).
    rewrite range_cons by lia. cbn [carry].
    cbn [map] in *. rewrite getitem_app_here. cbn [rbind].
    destruct (@getitem_in_range _ start_angles (len done)) as [s_i ->];
      [lia|].
    cbn [rbind py_gt].
    destruct (fgt x (s_i + width * f1_01)).
    + replace (len done =? len (done ++ PyFloat x :: PyFloat y
                                       :: map PyFloat fl) - 1)
        with false by (symmetry; apply Z.eqb_neq; lia).
      rewrite setitem_app_here. cbn [rbind].
      replace (done ++ PyList start_angles :: PyFloat y :: map PyFloat fl)
        with ((done ++ [PyList start_angles])
                ++ PyFloat y :: map PyFloat fl)
        by (rewrite <- app_assoc; reflexivity).
      replace (len done + 1) with (len (done ++ [PyList start_angles]))
        by (rewrite len_app, len_cons; reflexivity).
      rewrite getitem_app_here. cbn [rbind py_iadd].
      rewrite setitem_app_here. cbn [rbind].
      destruct (IH (y + resolution)%float (done ++ [PyList start_angles]))
        as (mid & last & Hcarry).
      { cbn [map]. rewrite Hlen, !len_app, !len_cons.
        change (len (@nil pyval)) with 0. lia. }
      cbn [map] in Hcarry.
      replace (len (done ++ PyFloat x :: PyFloat y :: map PyFloat fl))
        with (len ((done ++ [PyList start_angles])
                     ++ PyFloat (y + resolution) :: map PyFloat fl))
        by (rewrite !len_app, !len_cons; change (len (@nil pyval)) with 0;
            lia).
      rewrite Hcarry.
      exists (PyList start_angles :: mid), last.
      rewrite <- app_assoc. reflexivity.
    + destruct (floats_end y fl) as (mid & last & Hend).
      cbn [map] in Hend. rewrite Hend.
      exists (PyFloat x :: mid), last. reflexivity.
Qed.

(** Once the first element of [angles] is a list, an iteration evaluates
    the objective on that array and then raises: [angles[0] += resolution]
    cannot add a float to a list. *)
Lemma body_on_list (st : gs_state) (l : list float) (tl : list pyval)
    (s : S) :
  gs_angles st = PyList l :: tl ->
  body st s
  = match Objective (np_array (gs_angles st)) s with
    | (Ok _, s') => (Raise TypeError, s')
    | (Raise e, s') => (Raise e, s')
    end.
Proof.
  intros Ha. unfold gs_body, bind, lift.
  destruct (Objective (np_array (gs_angles st)) s) as [[obj|e] s'];
    [|reflexivity].
  rewrite Ha. reflexivity.
Qed.

End GridSearchProperties.

(** ** The script on concrete inputs *)

(** One layer of eight angles. *)
Example RunCircuit_one_layer :
  RunCircuit_circuit [[1; 2; 3; 4; 5; 6; 7; 8]%float]
  = Ok [ Moment [rz 1 (q_ 0); rz 2 (q_ 1); rz 3 (q_ 2); rz 4 (q_ 3)];
         Op (CZ (q_ 0) (q_ 1)); Op (CZ (q_ 0) (q_ 2)); Op (CZ (q_ 0) (q_ 3));
         Op (CZ (q_ 1) (q_ 2)); Op (CZ (q_ 1) (q_ 3)); Op (CZ (q_ 2) (q_ 3));
         Moment [rx 5 (q_ 0); rx 6 (q_ 1); rx 7 (q_ 2); rx 8 (q_ 3)] ].
Proof. reflexivity. Qed.

(** A row that is too short makes the block builders raise. *)
Example RunCircuit_short_row :
  RunCircuit_circuit [[1; 2; 3]%float] = Raise IndexError.
Proof. reflexivity. Qed.

(** Nine angles cannot be reshaped into rows of eight. *)
Example Objective_nine_angles :
  fst (stub_Objective 0%nat (repeat 0%float 9) 0%nat) = Raise ValueError.
Proof. reflexivity. Qed.

(** [GeneratePlot(2)], the call the script ends with: the plot call gets
    two x-values and one y-value, which the stand-in plot (like
    matplotlib) refuses. *)
Example GeneratePlot_2_raises :
  fst (stub_GeneratePlot 2 {| ext := 0%nat; calls := [] |}) = Raise ValueError
  /\ exists y : float,
       last (stub_trace 2 0%nat) call_show = call_plot [1; 2] [y].
Proof. split; [vm_compute; reflexivity|]. eexists. vm_compute. reflexivity. Qed.

(** A grid of 3 x 3 points around (0, 0): the objective is evaluated at
    the three points of the first row, the carry then stores the list of
    start angles in [angles[0]], the objective is evaluated on that ragged
    array, and the search ends with [TypeError]. *)
Example GridSearch_two_angles :
  GridSearch 20 [0; 0]%float 1 0.5 (recording 1) []
  = (Raise TypeError,
     [ [PyFloat (-0.5); PyFloat (-0.5)];
       [PyFloat 0; PyFloat (-0.5)];
       [PyFloat 0.5; PyFloat (-0.5)];
       [PyList [-0.5; -0.5]%float; PyFloat 0] ]).
Proof. vm_compute. reflexivity. Qed.

(** With a single angle the three grid points are all evaluated. *)
Example GridSearch_one_angle :
  GridSearch 20 [0%float] 1 0.5 (recording 1) []
  = (Ok (Some ([PyFloat (-0.5)], 1%float)),
     [ [PyFloat (-0.5)]; [PyFloat 0]; [PyFloat 0.5] ]).
Proof. vm_compute. reflexivity. Qed.

Lemma GeneratePlot_plot_lengths_differ_witness :
  2 <= 2
  /\ exists (ys : list float),
       In (call_plot [1; 2] ys) (stub_trace 2 0%nat) /\ len ys = 1.
Proof.
  split; [apply Z.le_refl|].
  destruct (GeneratePlot_plot_lengths_differ
              stub_print stub_simulate stub_state_vector
              stub_random_superposition stub_uniform stub_norm stub_sub
              stub_minimize stub_plot stub_label stub_label stub_label
              stub_show (max_L := 2) 0%nat (Z.le_refl 2))
    as (phi & lys & rest & Htr & _ & _ & _ & Hys).
  exists (map layer_best lys). split; [|exact Hys].
  unfold stub_trace. rewrite Htr. right. apply in_or_app. right.
  left. reflexivity.
Defined.

Lemma GeneratePlot_sweeps_layers_witness :
  2 <= 3
  /\ exists (lys : list Layer) (ys : list float),
       map layer_L lys = [2; 3]
       /\ In (call_plot [1; 2; 3] ys) (stub_trace 3 0%nat)
       /\ len ys = 2.
Proof.
  split; [discriminate|].
  destruct (GeneratePlot_sweeps_layers
              stub_print stub_simulate stub_state_vector
              stub_random_superposition stub_uniform stub_norm stub_sub
              stub_minimize stub_plot stub_label stub_label stub_label
              stub_show (max_L := 3) 0%nat ltac:(discriminate))
    as (phi & lys & rest & Htr & HL & _ & _ & Hys).
  exists lys, (map layer_best lys).
  split; [exact HL|]. split; [|exact Hys].
  unfold stub_trace. rewrite Htr. right. apply in_or_app. right.
  left. reflexivity.
Defined.

Lemma Objective_is_distance_witness :
  (0 < 1)%nat
  /\ length (repeat 0%float 8) = (8 * 1)%nat
  /\ exists (out w' : nat),
       stub_RunCircuit [repeat 0%float 8] 0%nat = (Ok out, w')
       /\ stub_Objective 5%nat (repeat 0%float 8) 0%nat
          = (Ok (stub_norm (stub_sub 5%nat out)), w').
Proof.
  split; [apply Nat.lt_0_1|]. split; [reflexivity|].
  destruct (Objective_is_distance
              stub_print stub_simulate stub_state_vector stub_norm stub_sub
              5%nat (repeat 0%float 8) (k := 1) 0%nat
              Nat.lt_0_1 eq_refl)
    as (rows & out & w' & Hk & H8 & Hcat & Hre & Hrun & Hobj).
  exists out, w'.
  assert (Hrows : rows = [repeat 0%float 8])
    by (vm_compute in Hre; now injection Hre).
  subst rows. split; [exact Hrun | exact Hobj].
Defined.

Lemma RunCircuit_builds_layers_witness :
  Forall (fun row : list float => length row = 8%nat)
         [[1; 2; 3; 4; 5; 6; 7; 8]%float]
  /\ stub_RunCircuit [[1; 2; 3; 4; 5; 6; 7; 8]%float] 0%nat = (Ok 8%nat, 1%nat).
Proof.
  assert (H : Forall (fun row : list float => length row = 8%nat)
                     [[1; 2; 3; 4; 5; 6; 7; 8]%float])
    by (repeat constructor).
  split; [exact H|].
  exact (proj2 (proj2 (RunCircuit_builds_layers
                         stub_print stub_simulate stub_state_vector
                         0%nat H))).
Defined.

(** * Further properties of the script *)

(** ** The block builders outside their intended shape *)

Lemma getitem_first_four {A} (x0 x1 x2 x3 : A) (l : list A) :
  getitem (x0 :: x1 :: x2 :: x3 :: l) 0 = Ok x0
  /\ getitem (x0 :: x1 :: x2 :: x3 :: l) 1 = Ok x1
  /\ getitem (x0 :: x1 :: x2 :: x3 :: l) 2 = Ok x2
  /\ getitem (x0 :: x1 :: x2 :: x3 :: l) 3 = Ok x3.
Proof. repeat split. Qed.

(** X1. [EvenBlockMoments] and [OddBlockMoments] read the first four
    angles and the first four qubits and ignore the others.  With fewer
    than four of either they raise [IndexError]; with four that are not
    pairwise different they raise [ValueError], as cirq refuses a moment
    with two operations on one qubit; otherwise they return the Rz moment
    followed by the six CZ operations, and the Rx moment. *)
Theorem block_builders_first_four (qubits : list LineQubit)
    (angles : list float) :
  let a i := nth i angles 0%float in
  let q i := nth i qubits (q_ 0) in
  if ((4 <=? length angles) && (4 <=? length qubits))%nat
  then
    if distinct (firstn 4 qubits)
    then
      EvenBlockMoments qubits angles
      = Ok [ Moment [rz (a 0%nat) (q 0%nat); rz (a 1%nat) (q 1%nat);
                     rz (a 2%nat) (q 2%nat); rz (a 3%nat) (q 3%nat)];
             Op (CZ (q 0%nat) (q 1%nat)); Op (CZ (q 0%nat) (q 2%nat));
             Op (CZ (q 0%nat) (q 3%nat)); Op (CZ (q 1%nat) (q 2%nat));
             Op (CZ (q 1%nat) (q 3%nat)); Op (CZ (q 2%nat) (q 3%nat)) ]
      /\ OddBlockMoments qubits angles
         = Ok [ Moment [rx (a 0%nat) (q 0%nat); rx (a 1%nat) (q 1%nat);
                        rx (a 2%nat) (q 2%nat); rx (a 3%nat) (q 3%nat)] ]
    else
      EvenBlockMoments qubits angles = Raise ValueError
      /\ OddBlockMoments qubits angles = Raise ValueError
  else
    EvenBlockMoments qubits angles = Raise IndexError
    /\ OddBlockMoments qubits angles = Raise IndexError.
Proof.
  cbv zeta.
  destruct angles as [|a0 [|a1 [|a2 [|a3 angles]]]];
    destruct qubits as [|q0 [|q1 [|q2 [|q3 qubits]]]];
    try (split; reflexivity).
  cbn [length Nat.leb andb firstn nth].
  destruct (getitem_first_four a0 a1 a2 a3 angles)
    as (Ha0 & Ha1 & Ha2 & Ha3).
  destruct (getitem_first_four q0 q1 q2 q3 qubits)
    as (Hq0 & Hq1 & Hq2 & Hq3).
  unfold EvenBlockMoments, OddBlockMoments, cirq_Moment, cirq_CZ.
  change (range 0 4) with [0; 1; 2; 3].
  cbn [comprehension].
  rewrite Ha0, Ha1, Ha2, Ha3, Hq0, Hq1, Hq2, Hq3.
  cbn [rbind flat_map qubits_of app distinct existsb].
  destruct (LineQubit_eqb q0 q1), (LineQubit_eqb q0 q2),
    (LineQubit_eqb q0 q3), (LineQubit_eqb q1 q2), (LineQubit_eqb q1 q3),
    (LineQubit_eqb q2 q3); split; reflexivity.
Qed.

(** ** [RunCircuit] on arrays of any shape *)

Lemma append_row_cases (c : Circuit) (row : list float) :
  append_row c row
  = if (8 <=? length row)%nat then Ok (c ++ layer_of_row row)
    else Raise IndexError.
Proof.
  do 8 (destruct row as [|? row]; [reflexivity|]).
  unfold append_row. cbn [slice_to slice_from firstn skipn].
  set (e := EvenBlockMoments _ _). vm_compute in e. subst e. cbn [rbind].
  set (o := OddBlockMoments _ _). vm_compute in o. subst o. cbn [rbind].
  rewrite !fold_append, <- app_assoc. reflexivity.
Qed.

Lemma rfor_append_row (rows : list (list float)) :
  forall c : Circuit,
  rfor rows c append_row
  = if forallb (fun row => (8 <=? length row)%nat) rows
    then Ok (c ++ flat_map layer_of_row rows)
    else Raise IndexError.
Proof.
  induction rows as [|row rows IH]; intros c; cbn [rfor forallb flat_map].
  - now rewrite app_nil_r.
  - rewrite append_row_cases.
    destruct (8 <=? length row)%nat; cbn [rbind andb]; [|reflexivity].
    rewrite IH. destruct (forallb _ rows); [|reflexivity].
    now rewrite <- app_assoc.
Qed.

Lemma RunCircuit_circuit_cases (angle_array : list (list float)) :
  RunCircuit_circuit angle_array
  = if forallb (fun row => (8 <=? length row)%nat) angle_array
    then Ok (flat_map layer_of_row angle_array)
    else Raise IndexError.
Proof.
  transitivity (rfor angle_array [] append_row);
    [|exact (rfor_append_row angle_array [])].
  unfold RunCircuit_circuit.
  eapply eq_trans; [|exact (rfor_indices append_row [] angle_array [])].
  apply rfor_ext. intros c i _. cbn [app].
  destruct (getitem angle_array i) as [row|e]; reflexivity.
Qed.

Lemma chunks_of_concat (rows : list (list float)) (cols : nat) :
  Forall (fun row => length row = cols) rows ->
  chunks (length rows) cols (concat rows) = rows.
Proof.
  induction 1 as [|row rows Hrow _ IH]; cbn [length chunks concat];
    [reflexivity|].
  rewrite firstn_app, skipn_app, Hrow, Nat.sub_diag.
  rewrite firstn_all2, skipn_all2 by lia.
  cbn [firstn skipn app]. rewrite app_nil_r, IH. reflexivity.
Qed.

Lemma concat_rows_length (rows : list (list float)) (cols : nat) :
  Forall (fun row => length row = cols) rows ->
  length (concat rows) = (length rows * cols)%nat.
Proof.
  induction 1 as [|row rows Hrow _ IH]; cbn [length concat]; [reflexivity|].
  rewrite length_app, IH, Hrow. reflexivity.
Qed.

Lemma reshape_not_multiple (angles : list float) :
  (length angles mod 8 <> 0)%nat ->
  reshape angles (len angles / 8) 8 = Raise ValueError.
Proof.
  intros H. unfold reshape, len.
  replace (Z.of_nat (length angles) / 8 * 8 =? Z.of_nat (length angles))
    with false; [now rewrite andb_false_r|].
  symmetry. apply Z.eqb_neq. intros Heq. apply H.
  apply Nat2Z.inj. rewrite Nat2Z.inj_mod. cbn [Z.of_nat Pos.of_succ_nat
    Pos.succ]. rewrite <- Heq. apply Z.mod_mul. lia.
Qed.

Section RunCircuitShapes.

Variables StateVec world TrialResult : Type.
Variable builtin_print : Circuit -> world -> world.
Variable Simulator_simulate : Circuit -> option Z -> TrialResult.
Variable state_vector : TrialResult -> StateVec.
Variable linalg_norm : StateVec -> float.
Variable ndarray_sub : StateVec -> StateVec -> StateVec.

Local Abbreviation RunCircuit :=
  (RunCircuit builtin_print Simulator_simulate state_vector).
Local Abbreviation Objective :=
  (Objective builtin_print Simulator_simulate state_vector
             linalg_norm ndarray_sub).

(** X2. [RunCircuit] uses the first eight angles of every row and ignores
    the others.  When some row has fewer than eight angles it raises
    [IndexError] before anything is printed or simulated: the outside
    world is left as it was. *)
Theorem RunCircuit_rows_of_any_length (angle_array : list (list float))
    (w : world) :
  (Forall (fun row => (8 <= length row)%nat) angle_array ->
   RunCircuit angle_array w
   = (Ok (state_vector
            (Simulator_simulate (flat_map layer_of_row angle_array) None)),
      builtin_print (flat_map layer_of_row angle_array) w)
   /\ flat_map layer_of_row angle_array
      = flat_map layer_of_row (map (firstn 8) angle_array))
  /\ (Exists (fun row => (length row < 8)%nat) angle_array ->
      RunCircuit angle_array w = (Raise IndexError, w)).
Proof.
  unfold RunCircuit, bind, lift, ret.
  rewrite RunCircuit_circuit_cases. split.
  - intros H.
    replace (forallb (fun row => (8 <=? length row)%nat) angle_array)
      with true.
    + split; [reflexivity|].
      induction H as [|row rows Hrow _ IH]; [reflexivity|].
      cbn [map flat_map]. rewrite IH. f_equal.
      do 8 (destruct row as [|? row]; [cbn in Hrow; lia|]). reflexivity.
    + symmetry. apply forallb_forall. rewrite Forall_forall in H.
      intros row Hin. apply Nat.leb_le. now apply H.
  - intros H.
    replace (forallb (fun row => (8 <=? length row)%nat) angle_array)
      with false; [reflexivity|].
    symmetry. apply not_true_is_false. intros Hall.
    rewrite forallb_forall in Hall. apply Exists_exists in H.
    destruct H as (row & Hin & Hlt). specialize (Hall row Hin).
    apply Nat.leb_le in Hall. lia.
Qed.

(** X3. [Objective] raises [ValueError] when the number of angles is not
    a multiple of eight, before anything is printed or simulated; when it
    is a multiple of eight, zero included, it returns a value. *)
Theorem Objective_needs_multiple_of_8 (phi : StateVec)
    (angles : list float) (w : world) :
  if (length angles mod 8 =? 0)%nat
  then exists (v : float) (w' : world), Objective phi angles w = (Ok v, w')
  else Objective phi angles w = (Raise ValueError, w).
Proof.
  destruct (Nat.eqb_spec (length angles mod 8) 0) as [H|H].
  - assert (Hk : length angles = (8 * (length angles / 8))%nat).
    { pose proof (Nat.div_mod_eq (length angles) 8). lia. }
    unfold Objective, bind, lift, ret.
    rewrite (@reshape_rows_of_8 _ _ Hk).
    unfold RunCircuit, bind, lift, ret.
    rewrite RunCircuit_circuit_cases.
    replace (forallb (fun row => (8 <=? length row)%nat)
                     (chunks (length angles / 8) 8 angles)) with true.
    + eexists _, _. reflexivity.
    + symmetry. apply forallb_forall. intros row Hin.
      pose proof (@chunks_rows float (length angles / 8) 8 angles) as Hr.
      rewrite Forall_forall in Hr. apply Nat.leb_le.
      rewrite (Hr ltac:(lia) row Hin). apply Nat.le_refl.
  - unfold Objective, bind, lift.
    rewrite (reshape_not_multiple angles H). reflexivity.
Qed.

(** X4. On the flattening of an L x 8 array, [Objective] is the distance
    between the target and the state that [RunCircuit] returns on that
    array: the reshape undoes the flattening. *)
Theorem Objective_of_flattened (phi : StateVec)
    (angle_array : list (list float)) (w : world) :
  Forall (fun row => length row = 8%nat) angle_array ->
  reshape (concat angle_array) (len (concat angle_array) / 8) 8
  = Ok angle_array
  /\ Objective phi (concat angle_array) w
     = (Ok (linalg_norm
              (ndarray_sub phi
                 (state_vector
                    (Simulator_simulate
                       (flat_map layer_of_row angle_array) None)))),
        builtin_print (flat_map layer_of_row angle_array) w).
Proof.
  intros H.
  assert (Hre : reshape (concat angle_array)
                        (len (concat angle_array) / 8) 8 = Ok angle_array).
  { rewrite (@reshape_rows_of_8 (concat angle_array) (length angle_array))
      by (rewrite (concat_rows_length H); lia).
    now rewrite (chunks_of_concat H). }
  split; [exact Hre|].
  unfold Objective, bind, lift, ret. rewrite Hre.
  unfold RunCircuit, bind, lift, ret.
  rewrite (RunCircuit_circuit_layers H). reflexivity.
Qed.

End RunCircuitShapes.

(** X5. Layers compose: the circuit of an array followed by another is
    the circuit of the first followed by the circuit of the second, and it
    is built only if both are. *)
Theorem RunCircuit_circuit_app (a b : list (list float)) :
  RunCircuit_circuit (a ++ b)
  = rbind (RunCircuit_circuit a) (fun ca =>
    rbind (RunCircuit_circuit b) (fun cb => Ok (ca ++ cb))).
Proof.
  rewrite !RunCircuit_circuit_cases, forallb_app, flat_map_app.
  destruct (forallb _ a); cbn [andb rbind]; [|reflexivity].
  destruct (forallb _ b); reflexivity.
Qed.

(** ** [GeneratePlot] at its edges *)

Lemma SFcompare_refl (x : spec_float) :
  x <> S754_nan -> SFcompare x x = Some Eq.
Proof.
  destruct x as [s|s| |s m e]; cbn [SFcompare]; intros H;
    try congruence; destruct s; try reflexivity;
    rewrite Z.compare_refl, pos_cont_eq, Pos.compare_refl; reflexivity.
Qed.

(** A float that is below another one is a number. *)
Lemma flt_number (a b : float) : flt a b = true -> (a =? a)%float = true.
Proof.
  unfold flt. rewrite ltb_spec, eqb_spec. unfold SFltb, SFeqb.
  destruct (Prim2SF a) as [s|s| |s m e] eqn:Ha; intros H;
    rewrite SFcompare_refl by discriminate; reflexivity.
Qed.

Lemma fold_keep_smaller_below_inf (vals : list float) :
  forall opt_val : float,
  opt_val = float_inf \/ flt opt_val float_inf = true ->
  fold_left keep_smaller vals opt_val = float_inf
  \/ flt (fold_left keep_smaller vals opt_val) float_inf = true.
Proof.
  induction vals as [|v vals IH]; intros opt_val H; cbn [fold_left];
    [exact H|].
  apply IH. unfold keep_smaller.
  destruct (flt v opt_val) eqn:Hv; [right|exact H].
  destruct H as [->|H]; [exact Hv|]. exact (@flt_trans _ _ _ Hv H).
Qed.

Section GeneratePlotEdges.

Variables StateVec world TrialResult : Type.
Variable builtin_print : Circuit -> world -> world.
Variable Simulator_simulate : Circuit -> option Z -> TrialResult.
Variable state_vector : TrialResult -> StateVec.
Variable random_superposition : Z -> world -> StateVec * world.
Variable random_uniform : float -> float -> Z -> world -> list float * world.
Variable linalg_norm : StateVec -> float.
Variable ndarray_sub : StateVec -> StateVec -> StateVec.
Variable minimize :
  (list float -> M world float) -> list float -> list (float * float) ->
  world -> OptimizeResult * world.
Variable plt_plot : list Z -> list float -> M world unit.
Variable plt_title plt_xlabel plt_ylabel : string -> world -> world.
Variable plt_show : world -> world.

Local Abbreviation GeneratePlot :=
  (GeneratePlot builtin_print Simulator_simulate state_vector
                random_superposition random_uniform linalg_norm ndarray_sub
                minimize plt_plot plt_title plt_xlabel plt_ylabel plt_show).
Local Abbreviation trace :=
  (trace builtin_print Simulator_simulate state_vector
         random_superposition random_uniform linalg_norm ndarray_sub
         minimize plt_plot plt_title plt_xlabel plt_ylabel plt_show).
Local Abbreviation layer_calls :=
  (layer_calls builtin_print Simulator_simulate state_vector
               linalg_norm ndarray_sub).
Local Abbreviation replay :=
  (replay random_superposition random_uniform minimize plt_plot plt_title
          plt_xlabel plt_ylabel plt_show).
Local Abbreviation sweep phi :=
  (layer builtin_print Simulator_simulate state_vector random_uniform
         linalg_norm ndarray_sub minimize phi).

Lemma run_shape (max_L : Z) (w : world) :
  exists (phi : StateVec) (lys : list Layer) (rest : list (Call StateVec world)),
    map layer_L lys = range 2 (max_L + 1)
    /\ Forall (fun ly => length (layer_restarts ly) = 10%nat) lys
    /\ Forall (@is_pyplot_call StateVec world) rest
    /\ trace max_L w
       = call_random_superposition 16 phi
           :: flat_map (layer_calls phi) lys
           ++ call_plot (range 1 (max_L + 1)) (map layer_best lys) :: rest.
Proof.
  destruct (GeneratePlot_run builtin_print Simulator_simulate state_vector
              random_superposition random_uniform linalg_norm ndarray_sub
              minimize plt_plot plt_title plt_xlabel plt_ylabel plt_show
              max_L {| ext := w; calls := [] |})
    as (phi & lys & rest & HL & H10 & Hrest & Hc).
  exists phi, lys, rest. repeat split; assumption.
Qed.

(** X7. For [max_L <= 1] no layer count is swept: after the draw of the
    target the run goes straight to the plot call, without drawing a
    start point or calling the solver.  The plot call gets no y-value;
    it gets no x-value either when [max_L <= 0], and the x-value 1 when
    [max_L = 1]. *)
Theorem GeneratePlot_below_two (max_L : Z) (w : world) :
  max_L <= 1 ->
  exists (phi : StateVec) (rest : list (Call StateVec world)),
    trace max_L w
    = call_random_superposition 16 phi
        :: call_plot (if max_L =? 1 then [1] else []) [] :: rest
    /\ Forall (@is_pyplot_call StateVec world) rest.
Proof.
  intros Hmax.
  destruct (run_shape max_L w) as (phi & lys & rest & HL & _ & Hrest & Htr).
  rewrite range_nil in HL by lia.
  destruct lys as [|ly lys]; [|discriminate].
  exists phi, rest. split; [|exact Hrest].
  rewrite Htr. cbn [flat_map map app]. do 2 f_equal.
  destruct (Z.eqb_spec max_L 1) as [->|Hne]; [reflexivity|].
  now rewrite range_nil by lia.
Qed.

Lemma layer_calls_count (p : Call StateVec world -> bool) (phi : StateVec)
    (lys : list Layer) :
  (forall L r, length (filter p (restart_calls builtin_print
                 Simulator_simulate state_vector linalg_norm ndarray_sub
                 phi L r)) = 1%nat) ->
  Forall (fun ly => length (layer_restarts ly) = 10%nat) lys ->
  length (filter p (flat_map (layer_calls phi) lys))
  = (10 * length lys)%nat.
Proof.
  intros Hone H10. induction H10 as [|ly lys Hly _ IH]; [reflexivity|].
  cbn [flat_map length]. rewrite filter_app, length_app, IH.
  assert (Hl : forall rs,
             length (filter p (flat_map (restart_calls builtin_print
               Simulator_simulate state_vector linalg_norm ndarray_sub
               phi (layer_L ly)) rs)) = length rs).
  { induction rs as [|r rs IHrs]; [reflexivity|].
    cbn [flat_map length]. rewrite filter_app, length_app, IHrs, Hone.
    reflexivity. }
  unfold layer_calls at 1. rewrite Hl, Hly. lia.
Qed.

(** X8. A run calls the solver exactly [10 * (max_L - 1)] times and draws
    as many start points (none when [max_L <= 1]). *)
Theorem GeneratePlot_call_counts (max_L : Z) (w : world) :
  length (filter is_minimize_call (trace max_L w))
  = (10 * Z.to_nat (max_L - 1))%nat
  /\ length (filter is_uniform_call (trace max_L w))
     = (10 * Z.to_nat (max_L - 1))%nat.
Proof.
  destruct (run_shape max_L w) as (phi & lys & rest & HL & H10 & Hrest & Htr).
  assert (Hn : length lys = Z.to_nat (max_L - 1)).
  { rewrite <- (length_map layer_L), HL, range_length. f_equal. lia. }
  assert (Hrest' : forall p : Call StateVec world -> bool,
             (forall c, is_pyplot_call c -> p c = false) ->
             filter p rest = []).
  { intros p Hp. clear Htr.
    induction Hrest as [|c rest Hc _ IH]; [reflexivity|].
    cbn [filter]. rewrite (Hp c Hc). exact IH. }
  rewrite Htr. split.
  - cbn [filter is_minimize_call]. rewrite filter_app, length_app.
    cbn [filter is_minimize_call].
    rewrite Hrest' by (intros []; cbn; (reflexivity || contradiction)).
    rewrite (layer_calls_count is_minimize_call phi) by
      first [intros; reflexivity | exact H10].
    cbn [length]. lia.
  - cbn [filter is_uniform_call]. rewrite filter_app, length_app.
    cbn [filter is_uniform_call].
    rewrite Hrest' by (intros []; cbn; (reflexivity || contradiction)).
    rewrite (layer_calls_count is_uniform_call phi) by
      first [intros; reflexivity | exact H10].
    cbn [length]. lia.
Qed.

Local Abbreviation accounted :=
  (accounted random_superposition random_uniform minimize plt_plot plt_title
             plt_xlabel plt_ylabel plt_show).

Lemma accounted_layer (phi : StateVec) (best_vals : list float) (L : Z) :
  accounted (sweep phi best_vals L).
Proof.
  unfold layer. cbv zeta.
  apply accounted_bind; [|intros v; apply accounted_ret].
  apply accounted_for. intros opt_val k. unfold restart.
  apply accounted_bind;
    [apply accounted_logged; intros w; reflexivity|intros start].
  apply accounted_bind;
    [apply accounted_logged; intros w; reflexivity|intros opt].
  apply accounted_ret.
Qed.

Lemma layer_calls_draw_or_solve (phi : StateVec) (lys : list Layer) :
  Forall (@is_draw_or_solve StateVec world)
         (flat_map (layer_calls phi) lys).
Proof.
  apply Forall_forall. intros c Hc.
  apply in_flat_map in Hc. destruct Hc as (ly & _ & Hc).
  unfold layer_calls in Hc. apply in_flat_map in Hc.
  destruct Hc as (r & _ & [<-|[<-|[]]]); exact I.
Qed.

(** X9. How a run ends is decided by the plot call.  Before it only the
    target is drawn, start points are drawn and the solver is called.  If
    [plt.plot] raises, [GeneratePlot] raises the same exception and makes
    no further call; if it returns, the title, the two axis labels and
    [show] follow in this order, with the texts of the script, and
    [GeneratePlot] returns. *)
Theorem GeneratePlot_ends_with_plot (max_L : Z) (w : world) :
  exists (before : list (Call StateVec world)) (ys : list float),
    Forall (@is_draw_or_solve StateVec world) before
    /\ match fst (plt_plot (range 1 (max_L + 1)) ys (replay before w)) with
       | Ok _ =>
           fst (GeneratePlot max_L {| ext := w; calls := [] |}) = Ok tt
           /\ trace max_L w
              = before
                ++ [ call_plot (range 1 (max_L + 1)) ys;
                     call_title
                       ("Normalized Difference Between Circuit Output and"
                        ++ newline
                        ++ "Target State as a Function Circuit Layers");
                     call_xlabel "Circuit Layers";
                     call_ylabel "Distance to target";
                     call_show ]
       | Raise e =>
           fst (GeneratePlot max_L {| ext := w; calls := [] |}) = Raise e
           /\ trace max_L w
              = before ++ [call_plot (range 1 (max_L + 1)) ys]
       end.
Proof.
  change (trace max_L w)
    with (calls (snd (GeneratePlot max_L {| ext := w; calls := [] |}))).
  destruct (random_superposition 16 w) as [phi w1] eqn:Hrs.
  pose (r1 := {| ext := w1; calls := [call_random_superposition 16 phi] |}).
  destruct (sweep_run builtin_print Simulator_simulate state_vector
              random_uniform linalg_norm ndarray_sub minimize
              phi (range 2 (max_L + 1)) [] r1)
    as (lys & r2 & Hrun & _ & _ & Hc).
  destruct (accounted_for (range 2 (max_L + 1)) (sweep phi)
              (accounted_layer phi) [] r1)
    as (new & Hc' & He & _).
  rewrite Hrun in Hc', He. cbn [snd app] in Hc', He, Hrun.
  rewrite Hc in Hc'. apply app_inv_head in Hc'. subst new.
  exists (call_random_superposition 16 phi
            :: flat_map (layer_calls phi) lys), (map layer_best lys).
  split; [constructor; [exact I | apply layer_calls_draw_or_solve]|].
  cbn [replay effect]. rewrite Hrs. cbn [snd].
  change w1 with (ext r1). rewrite <- He.
  assert (Hout :
    GeneratePlot max_L {| ext := w; calls := [] |}
    = bind (pyplot_plot plt_plot (range 1 (max_L + 1)) (map layer_best lys))
        (fun _ =>
         bind (pyplot (plt_title title_string) (call_title title_string))
           (fun _ =>
            bind (pyplot (plt_xlabel "Circuit Layers")
                         (call_xlabel "Circuit Layers"))
              (fun _ =>
               bind (pyplot (plt_ylabel "Distance to target")
                            (call_ylabel "Distance to target"))
                 (fun _ => pyplot plt_show call_show)))) r2).
  { unfold GeneratePlot. cbv zeta. unfold bind at 1.
    unfold cirq_testing_random_superposition, logged.
    cbn [ext calls app]. rewrite Hrs. unfold bind at 1.
    change {| ext := w1; calls := [call_random_superposition 16 phi] |}
      with r1.
    rewrite Hrun. reflexivity. }
  rewrite Hout. unfold bind, pyplot_plot, pyplot, logged.
  destruct (plt_plot (range 1 (max_L + 1)) (map layer_best lys) (ext r2))
    as [[[]|e] w3]; cbn [fst snd ext calls].
  - split; [reflexivity|]. rewrite Hc. cbn [calls r1].
    rewrite <- !app_assoc. reflexivity.
  - split; [reflexivity|]. rewrite Hc. reflexivity.
Qed.

(** X16. The values handed to the plot call are numbers, never NaN,
    whatever the solver returns: each is infinity or below infinity,
    because a value replaces the running minimum only when it compares
    below it. *)
Theorem GeneratePlot_values_are_numbers (max_L : Z) (w : world) :
  forall (xs : list Z) (ys : list float),
  In (call_plot xs ys) (trace max_L w) ->
  Forall (fun y => (y = float_inf \/ flt y float_inf = true)
                   /\ (y =? y)%float = true) ys.
Proof.
  intros xs ys Hplot.
  destruct (run_shape max_L w) as (phi & lys & rest & _ & _ & Hrest & Htr).
  rewrite Htr in Hplot.
  assert (Hys : ys = map layer_best lys).
  { destruct Hplot as [Heq|Hplot]; [discriminate|].
    apply in_app_or in Hplot. destruct Hplot as [Hplot|[Heq|Hplot]].
    - apply in_flat_map in Hplot. destruct Hplot as (ly & _ & Hc).
      unfold layer_calls in Hc. apply in_flat_map in Hc.
      destruct Hc as (r & _ & [Heq|[Heq|[]]]); discriminate.
    - now injection Heq.
    - rewrite Forall_forall in Hrest. destruct (Hrest _ Hplot). }
  subst ys. apply Forall_forall. intros y Hy.
  apply in_map_iff in Hy. destruct Hy as (ly & <- & _).
  assert (H : layer_best ly = float_inf
              \/ flt (layer_best ly) float_inf = true)
    by (apply fold_keep_smaller_below_inf; left; reflexivity).
  split; [exact H|].
  destruct H as [->|H]; [reflexivity | exact (flt_number H)].
Qed.

End GeneratePlotEdges.

(** ** [GridSearch] at its edges *)

Lemma getitem_last_app {A} (l : list A) (x : A) :
  getitem_last (l ++ [x]) = Ok x.
Proof. unfold getitem_last. now rewrite rev_app_distr. Qed.

Lemma flt_asym (a b : float) : flt a b = true -> flt b a = false.
Proof.
  unfold flt. intros H. destruct (b <? a)%float eqn:Hba; [|reflexivity].
  pose proof (@flt_trans _ _ _ H Hba) as Haa.
  rewrite flt_irrefl in Haa. discriminate.
Qed.

(** X10. On an empty [center_array] the loop test [angles[-1] < ...]
    raises [IndexError]: the objective is never evaluated. *)
Theorem GridSearch_empty_center (S : Type) (fuel : nat)
    (width resolution : float) (Objective : list pyval -> M S float)
    (s : S) :
  GridSearch (Datatypes.S fuel) [] width resolution Objective s
  = (Raise IndexError, s).
Proof. reflexivity. Qed.

(** X11. When the loop test fails at the start, that is when the last
    start angle is not below itself plus [1.01 * width] (a width of zero,
    a negative width, a NaN), the objective is never evaluated and
    [return best_angles, opt_val] raises [UnboundLocalError], because
    [best_angles] was never assigned. *)
Theorem GridSearch_loop_not_entered (S : Type) (fuel : nat)
    (front : list float) (c_last width resolution : float)
    (Objective : list pyval -> M S float) (s : S) :
  flt (c_last - width / 2) (c_last - width / 2 + width * f1_01) = false ->
  GridSearch (Datatypes.S fuel) (front ++ [c_last]) width resolution
             Objective s
  = (Raise UnboundLocalError, s).
Proof.
  intros Hcond. unfold GridSearch. cbv zeta. cbn [gs_while].
  unfold bind at 2. unfold lift at 1. unfold gs_cond. cbn [gs_angles].
  rewrite !map_app. cbn [map]. rewrite !getitem_last_app.
  cbn [rbind py_lt]. rewrite Hcond. reflexivity.
Qed.

Lemma GridSearch_loop_not_entered_witness :
  GridSearch 5 [1; 2]%float 0 0.5 (recording 1) []
  = (Raise UnboundLocalError, []).
Proof.
  exact (@GridSearch_loop_not_entered _ 4 [1%float] 2 0 0.5 (recording 1) []
           eq_refl).
Defined.

(** ** [GridSearch] with a recorded objective *)

Section GridSearchLogged.

Variable start_angles : list float.
Variables width resolution : float.
Variable f : list pyval -> float.

Local Abbreviation test := (gs_cond start_angles width).
Local Abbreviation step :=
  (gs_body start_angles width resolution (logging f)).
Local Abbreviation loop :=
  (gs_while start_angles width resolution (logging f)).
Local Abbreviation carry_on := (carry start_angles width resolution).

(** What an iteration that raises nothing does. *)
Lemma step_logged (st st' : gs_state) (log log' : list (list pyval)) :
  step st log = (Ok st', log') ->
  log' = log ++ [gs_angles st]
  /\ gs_opt_val st' = keep_smaller (gs_opt_val st) (f (gs_angles st))
  /\ gs_best_angles st'
     = (if flt (f (gs_angles st)) (gs_opt_val st)
        then Some (gs_angles st) else gs_best_angles st)
  /\ exists (a_0 a_0' : pyval) (angles1 : list pyval),
       getitem (gs_angles st) 0 = Ok a_0
       /\ py_iadd a_0 resolution = Ok a_0'
       /\ setitem (gs_angles st) 0 a_0' = Ok angles1
       /\ carry_on (range 0 (len angles1)) angles1 = Ok (gs_angles st').
Proof.
  unfold gs_body, bind, lift, ret, logging, np_array.
  intros H.
  destruct (getitem (gs_angles st) 0) as [a_0|e] eqn:H0; [|discriminate].
  destruct (py_iadd a_0 resolution) as [a_0'|e] eqn:H1; [|discriminate].
  destruct (setitem (gs_angles st) 0 a_0') as [angles1|e] eqn:H2;
    [|discriminate].
  destruct (carry_on (range 0 (len angles1)) angles1) as [angles2|e] eqn:Hc;
    [|discriminate].
  injection H as <- <-. unfold keep_smaller.
  split; [reflexivity|].
  split; [destruct (flt (f (gs_angles st)) (gs_opt_val st)); reflexivity|].
  split; [destruct (flt (f (gs_angles st)) (gs_opt_val st)); reflexivity|].
  exists a_0, a_0', angles1. repeat split; assumption.
Qed.

Lemma step_sound (st st' : gs_state) (log log' : list (list pyval)) :
  gs_sound f st log -> step st log = (Ok st', log') -> gs_sound f st' log'.
Proof.
  intros [Hlow Hbest] Hstep.
  destruct (step_logged _ _ Hstep) as (-> & Hopt & Hb & _).
  unfold gs_sound. rewrite Hopt, Hb. unfold keep_smaller.
  destruct (flt (f (gs_angles st)) (gs_opt_val st)) eqn:Hlt.
  - split.
    + apply Forall_app. split.
      * revert Hlow. apply Forall_impl. intros a Ha.
        unfold flt in *. destruct (f a <? f (gs_angles st))%float eqn:Hx;
          [|reflexivity].
        rewrite (@flt_trans _ _ _ Hx Hlt) in Ha. discriminate.
      * constructor; [apply flt_irrefl|constructor].
    + split; [apply in_or_app; right; left; reflexivity|].
      split; [reflexivity|].
      destruct (gs_best_angles st) as [b|].
      * destruct Hbest as (_ & _ & Hinf). exact (@flt_trans _ _ _ Hlt Hinf).
      * now rewrite Hbest in Hlt.
  - split.
    + apply Forall_app. split; [exact Hlow|].
      constructor; [exact Hlt|constructor].
    + destruct (gs_best_angles st) as [b|]; [|exact Hbest].
      destruct Hbest as (Hin & Hf & Hinf).
      split; [apply in_or_app; left; exact Hin|]. split; assumption.
Qed.

Lemma loop_sound (fuel : nat) :
  forall (st st' : gs_state) (log log' : list (list pyval)),
  gs_sound f st log ->
  loop fuel st log = (Ok (Some st'), log') ->
  gs_sound f st' log'.
Proof.
  induction fuel as [|fuel IH]; intros st st' log log' Hs; cbn [gs_while].
  - discriminate.
  - unfold bind at 1, lift at 1.
    destruct (test st) as [[|]|e]; [| |discriminate].
    + unfold bind. destruct (step st log) as [[st1|e] log1] eqn:Hstep;
        [|discriminate].
      apply IH. exact (step_sound Hs Hstep).
    + unfold ret. intros H. injection H as <- <-. exact Hs.
Qed.

End GridSearchLogged.

(** X12. When [GridSearch] returns [(best_angles, opt_val)], the value is
    the objective at [best_angles], [best_angles] is one of the arrays the
    objective was evaluated on, the value is below infinity, and no
    evaluated array has a smaller objective value. *)
Theorem GridSearch_returns_least_evaluated (fuel : nat)
    (center_array : list float) (width resolution : float)
    (f : list pyval -> float) (best : list pyval) (v : float)
    (log : list (list pyval)) :
  GridSearch fuel center_array width resolution (logging f) []
  = (Ok (Some (best, v)), log) ->
  In best log
  /\ f best = v
  /\ flt v float_inf = true
  /\ Forall (fun a => flt (f a) v = false) log.
Proof.
  unfold GridSearch. cbv zeta. unfold bind.
  set (start := map (fun a => (a - width / 2)%float) center_array).
  set (st0 := {| gs_angles := map PyFloat start; gs_opt_val := float_inf;
                 gs_best_angles := None |}).
  destruct (gs_while start width resolution (logging f) fuel st0 [])
    as [[[st|]|e] log1] eqn:Hloop; try discriminate.
  assert (Hs : gs_sound f st log1).
  { eapply loop_sound; [|exact Hloop].
    split; [constructor | reflexivity]. }
  destruct Hs as [Hlow Hbest].
  destruct (gs_best_angles st) as [b|]; [|discriminate].
  unfold ret. intros H. injection H as <- <- <-.
  destruct Hbest as (Hin & Hf & Hinf). repeat split; assumption.
Qed.

Lemma GridSearch_returns_least_evaluated_witness :
  In [PyFloat 0] [[PyFloat (-0.5)]; [PyFloat 0]; [PyFloat 0.5]]
  /\ square_of_first [PyFloat 0] = 0%float
  /\ flt 0 float_inf = true
  /\ Forall (fun a => flt (square_of_first a) 0 = false)
            [[PyFloat (-0.5)]; [PyFloat 0]; [PyFloat 0.5]].
Proof.
  apply (@GridSearch_returns_least_evaluated 20 [0%float] 1 0.5
           square_of_first).
  vm_compute. reflexivity.
Defined.

(** ** Which points [GridSearch] evaluates *)

Section GridSearchPoints.

Variable start_angles : list float.
Variables width resolution : float.
Variable f : list pyval -> float.

Local Abbreviation test := (gs_cond start_angles width).
Local Abbreviation step :=
  (gs_body start_angles width resolution (logging f)).
Local Abbreviation loop :=
  (gs_while start_angles width resolution (logging f)).
Local Abbreviation carry_on := (carry start_angles width resolution).

(** With two or more angles, all floats, the carry loop that finds the
    first one above its limit ends with the list of start angles in the
    first place. *)
Lemma carry_overflow (a0 a1 s0 : float) (more : list float) :
  len start_angles = len (PyFloat a0 :: PyFloat a1 :: map PyFloat more) ->
  getitem start_angles 0 = Ok s0 ->
  fgt a0 (s0 + width * f1_01) = true ->
  exists rest : list pyval,
    carry_on (range 0 (len (PyFloat a0 :: PyFloat a1 :: map PyFloat more)))
             (PyFloat a0 :: PyFloat a1 :: map PyFloat more)
    = Ok (PyList start_angles :: rest).
Proof.
  intros Hlen Hs0 Hover.
  pose proof (len_nonneg (map PyFloat more)) as Hm.
  rewrite !len_cons in Hlen.
  rewrite range_cons by (rewrite !len_cons; lia).
  cbn [carry]. rewrite Hs0.
  cbn [getitem Z.ltb Z.compare Z.to_nat nth_error rbind py_gt].
  rewrite Hover.
  replace (0 =? len (PyFloat a0 :: PyFloat a1 :: map PyFloat more) - 1)
    with false by (symmetry; apply Z.eqb_neq; rewrite !len_cons; lia).
  pose proof (setitem_app_here [] (PyFloat a1 :: map PyFloat more)
                (PyFloat a0) (PyList start_angles)) as H0.
  cbn [app] in H0. change (len (@nil pyval)) with 0 in H0.
  rewrite H0. cbn [rbind]. change (0 + 1) with 1.
  pose proof (getitem_app_here [PyList start_angles] (map PyFloat more)
                (PyFloat a1)) as H1.
  cbn [app] in H1. change (len [PyList start_angles]) with 1 in H1.
  rewrite H1. cbn [rbind py_iadd].
  pose proof (setitem_app_here [PyList start_angles] (map PyFloat more)
                (PyFloat a1) (PyFloat (a1 + resolution))) as H2.
  cbn [app] in H2. change (len [PyList start_angles]) with 1 in H2.
  rewrite H2. cbn [rbind].
  destruct (carry_floats start_angles width resolution more
              (a1 + resolution)%float [PyList start_angles])
    as (mid & last & Hcarry).
  { cbn [map app]. rewrite Hlen, !len_cons. reflexivity. }
  cbn [map app] in Hcarry.
  change (len [PyList start_angles]) with 1 in Hcarry.
  replace (len (PyFloat a0 :: PyFloat a1 :: map PyFloat more))
    with (len (PyList start_angles :: PyFloat (a1 + resolution)
                 :: map PyFloat more))
    by (rewrite !len_cons; reflexivity).
  rewrite Hcarry. exists (mid ++ [PyFloat last]). reflexivity.
Qed.

(** An iteration from an array on the first line leads to an array on
    the first line, or to one that starts with the list of start angles. *)
Lemma step_first_line (st st' : gs_state) (log log' : list (list pyval)) :
  start_angles <> [] ->
  on_first_line start_angles (gs_angles st) ->
  step st log = (Ok st', log') ->
  on_first_line start_angles (gs_angles st')
  \/ exists rest : list pyval, gs_angles st' = PyList start_angles :: rest.
Proof.
  intros Hne [x Hx] Hstep.
  destruct (step_logged _ _ _ _ _ _ Hstep)
    as (_ & _ & _ & a_0 & a_0' & angles1 & H0 & H1 & H2 & Hc).
  rewrite Hx in H0, H2. injection H0 as <-. injection H1 as <-.
  injection H2 as <-.
  destruct start_angles as [|s0 tail] eqn:Hstart; [congruence|].
  cbn [tl] in *. rewrite <- Hstart in Hc.
  destruct tail as [|s1 more].
  - left. exists (x + resolution)%float.
    change (range 0 (len (PyFloat (x + resolution) :: map PyFloat [])))
      with [0] in Hc.
    cbn [carry map] in Hc. rewrite Hstart in Hc.
    cbn [getitem Z.ltb Z.compare Z.to_nat nth_error rbind py_gt] in Hc.
    destruct (fgt (x + resolution) (s0 + width * f1_01));
      injection Hc as <-; reflexivity.
  - destruct (fgt (x + resolution) (s0 + width * f1_01)) eqn:Hover.
    + right.
      destruct (@carry_overflow (x + resolution)%float s1 s0 more)
        as (rest & Hrest).
      * rewrite Hstart, !len_cons. unfold len. now rewrite length_map.
      * rewrite Hstart. reflexivity.
      * exact Hover.
      * cbn [map] in Hc. rewrite Hrest in Hc. injection Hc as <-.
        exists rest. now rewrite Hstart.
    + left. exists (x + resolution)%float.
      rewrite range_cons in Hc by (rewrite !len_cons; unfold len; lia).
      cbn [carry] in Hc. rewrite Hstart in Hc.
      cbn [getitem Z.ltb Z.compare Z.to_nat nth_error rbind py_gt map]
        in Hc.
      rewrite Hover in Hc. injection Hc as <-. reflexivity.
Qed.

(** Once the first element is a list the loop can only stop: another
    iteration would raise. *)
Lemma loop_after_carry (fuel : nat) (st st' : gs_state) (l : list float)
    (rest : list pyval) (log log' : list (list pyval)) :
  gs_angles st = PyList l :: rest ->
  loop fuel st log = (Ok (Some st'), log') ->
  log' = log.
Proof.
  intros Ha. destruct fuel as [|fuel]; cbn [gs_while]; [discriminate|].
  unfold bind at 1, lift at 1.
  destruct (test st) as [[|]|e]; [| |discriminate].
  - unfold bind.
    rewrite (@body_on_list _ start_angles width resolution (logging f)
               st l rest log Ha).
    unfold logging. discriminate.
  - unfold ret. intros H. now injection H.
Qed.

Lemma loop_first_line (fuel : nat) :
  forall (st st' : gs_state) (log log' : list (list pyval)),
  start_angles <> [] ->
  on_first_line start_angles (gs_angles st) ->
  Forall (on_first_line start_angles) log ->
  loop fuel st log = (Ok (Some st'), log') ->
  Forall (on_first_line start_angles) log'.
Proof.
  induction fuel as [|fuel IH]; intros st st' log log' Hne Hst Hlog;
    cbn [gs_while]; [discriminate|].
  unfold bind at 1, lift at 1.
  destruct (test st) as [[|]|e]; [| |discriminate].
  - unfold bind. destruct (step st log) as [[st1|e] log1] eqn:Hstep;
      [|discriminate].
    intros Hloop.
    assert (Hlog1 : Forall (on_first_line start_angles) log1).
    { destruct (step_logged _ _ _ _ _ _ Hstep) as (-> & _).
      apply Forall_app. split; [exact Hlog|]. constructor; [exact Hst|].
      constructor. }
    assert (Hnext :
              on_first_line start_angles (gs_angles st1)
              \/ exists rest : list pyval,
                   gs_angles st1 = PyList start_angles :: rest)
      by (eapply step_first_line; eassumption).
    destruct Hnext as [Hline|(rest & Hrest)].
    + eapply IH; eassumption.
    + assert (Heq : log' = log1)
        by (eapply loop_after_carry; eassumption).
      rewrite Heq. exact Hlog1.
  - unfold ret. intros H. injection H as <- <-. exact Hlog.
Qed.

(** With a single angle an iteration evaluates the objective at the angle
    and moves it one step on. *)
Lemma step_single (st : gs_state) (a s0 : float)
    (log : list (list pyval)) :
  start_angles = [s0] ->
  gs_angles st = [PyFloat a] ->
  step st log
  = (Ok {| gs_angles := [PyFloat (a + resolution)];
           gs_opt_val := keep_smaller (gs_opt_val st) (f [PyFloat a]);
           gs_best_angles := if flt (f [PyFloat a]) (gs_opt_val st)
                             then Some [PyFloat a]
                             else gs_best_angles st |},
     log ++ [[PyFloat a]]).
Proof.
  intros Hs Ha.
  unfold gs_body, bind, lift, ret, logging, np_array. rewrite Ha, Hs.
  cbn [getitem Z.ltb Z.compare Z.to_nat nth_error py_iadd setitem set_nth].
  change (range 0 (len [PyFloat (a + resolution)])) with [0].
  cbn [carry getitem Z.ltb Z.compare Z.to_nat nth_error rbind py_gt].
  unfold keep_smaller.
  destruct (fgt (a + resolution) (s0 + width * f1_01));
    destruct (flt (f [PyFloat a]) (gs_opt_val st)); reflexivity.
Qed.

Lemma test_single (st : gs_state) (a s0 : float) :
  start_angles = [s0] ->
  gs_angles st = [PyFloat a] ->
  test st = Ok (flt a (s0 + width * f1_01)).
Proof. intros Hs Ha. unfold gs_cond. rewrite Ha, Hs. reflexivity. Qed.

(** The loop on a single angle, from the [j]-th grid point, when [m] more
    points pass the test and the next one fails it. *)
Lemma loop_single (s0 : float) (m : nat) :
  forall (j fuel : nat) (st : gs_state) (log : list (list pyval)),
  start_angles = [s0] ->
  gs_angles st = [PyFloat (grid_point s0 resolution j)] ->
  (forall k, (j <= k < j + m)%nat ->
             flt (grid_point s0 resolution k) (s0 + width * f1_01) = true) ->
  flt (grid_point s0 resolution (j + m)) (s0 + width * f1_01) = false ->
  (m < fuel)%nat ->
  exists st' : gs_state,
    loop fuel st log
    = (Ok (Some st'),
       log ++ map (fun k => [PyFloat (grid_point s0 resolution k)])
                  (seq j m))
    /\ gs_opt_val st'
       = fold_left keep_smaller
           (map (fun k => f [PyFloat (grid_point s0 resolution k)])
                (seq j m))
           (gs_opt_val st).
Proof.
  induction m as [|m IH]; intros j fuel st log Hs Ha Hin Hout Hfuel;
    (destruct fuel as [|fuel]; [lia|]); cbn [gs_while];
    unfold bind at 1, lift at 1; rewrite (test_single st Hs Ha).
  - rewrite Nat.add_0_r in Hout. rewrite Hout. exists st.
    cbn [seq map fold_left]. unfold ret. now rewrite app_nil_r.
  - rewrite (Hin j) by lia. unfold bind. rewrite (step_single st log Hs Ha).
    match goal with
    | |- context [gs_while _ _ _ _ fuel ?st1 ?log1] =>
        destruct (IH (S j) fuel st1 log1) as (st' & Hrun & Hopt)
    end.
    + exact Hs.
    + reflexivity.
    + intros k Hk. apply Hin. lia.
    + replace (S j + m)%nat with (j + S m)%nat by lia. exact Hout.
    + lia.
    + exists st'. split.
      * rewrite Hrun. cbn [seq map]. rewrite <- app_assoc. reflexivity.
      * rewrite Hopt. reflexivity.
Qed.

(** The loop on a single angle when the step is lost in rounding: every
    iteration evaluates the same point and the test never fails. *)
Lemma loop_stuck (s0 a : float) (fuel : nat) :
  forall (st : gs_state) (log : list (list pyval)),
  start_angles = [s0] ->
  gs_angles st = [PyFloat a] ->
  (a + resolution)%float = a ->
  flt a (s0 + width * f1_01) = true ->
  loop fuel st log = (Ok None, log ++ repeat [PyFloat a] fuel).
Proof.
  induction fuel as [|fuel IH]; intros st log Hs Ha Habs Hlt;
    cbn [gs_while repeat].
  - unfold ret. now rewrite app_nil_r.
  - unfold bind at 1, lift at 1. rewrite (test_single st Hs Ha), Hlt.
    unfold bind. rewrite (step_single st log Hs Ha), Habs.
    rewrite IH by (assumption || reflexivity).
    rewrite <- app_assoc. reflexivity.
Qed.

End GridSearchPoints.

(** X13. Whenever [GridSearch] returns, every array it evaluated the
    objective on differs from the start angles in the first angle at most:
    the other coordinates of the grid are never moved. *)
Theorem GridSearch_stays_on_first_line (fuel : nat)
    (center_array : list float) (width resolution : float)
    (f : list pyval -> float) (best : list pyval) (v : float)
    (log : list (list pyval)) :
  GridSearch fuel center_array width resolution (logging f) []
  = (Ok (Some (best, v)), log) ->
  Forall
    (fun a =>
       exists x : float,
         a = PyFloat x
               :: map PyFloat
                    (tl (map (fun c => (c - width / 2)%float) center_array)))
    log.
Proof.
  unfold GridSearch. cbv zeta. unfold bind.
  set (start := map (fun a => (a - width / 2)%float) center_array).
  set (st0 := {| gs_angles := map PyFloat start; gs_opt_val := float_inf;
                 gs_best_angles := None |}).
  destruct (gs_while start width resolution (logging f) fuel st0 [])
    as [[[st|]|e] log1] eqn:Hloop; try discriminate.
  destruct (gs_best_angles st) as [b|]; [|discriminate].
  unfold ret. intros H. injection H as <- <- <-.
  destruct center_array as [|c cs].
  - destruct fuel; discriminate.
  - change (Forall (on_first_line start) log1).
    eapply loop_first_line; [| | |exact Hloop].
    + discriminate.
    + exists (c - width / 2)%float. reflexivity.
    + constructor.
Qed.

Lemma GridSearch_stays_on_first_line_witness :
  Forall
    (fun a =>
       exists x : float,
         a = PyFloat x
               :: map PyFloat
                    (tl (map (fun c => (c - 1 / 2)%float) [0; 0]%float)))
    [[PyFloat (-0.5); PyFloat (-0.5)]].
Proof.
  apply (@GridSearch_stays_on_first_line 20 [0; 0]%float 1 2
           (fun _ => 1%float) [PyFloat (-0.5); PyFloat (-0.5)] 1).
  vm_compute. reflexivity.
Defined.

(** ** Whole runs of [GridSearch] *)

(** The run on a single angle. *)
Lemma one_angle_run (fuel n : nat) (c width resolution : float)
    (f : list pyval -> float) :
  let start := (c - width / 2)%float in
  let limit := (start + width * f1_01)%float in
  let point := grid_point start resolution in
  let points := map (fun k => [PyFloat (point k)]) (seq 0 n) in
  let least := best_of (map (fun k => f [PyFloat (point k)]) (seq 0 n)) in
  (n < fuel)%nat ->
  (forall k, (k < n)%nat -> flt (point k) limit = true) ->
  flt (point n) limit = false ->
  exists best : list pyval,
    GridSearch fuel [c] width resolution (logging f) []
    = (if flt least float_inf then Ok (Some (best, least))
       else Raise UnboundLocalError,
       points)
    /\ (flt least float_inf = true -> In best points /\ f best = least).
Proof.
  cbv zeta. intros Hfuel Hin Hout.
  unfold GridSearch. cbv zeta. unfold bind. cbn [map].
  match goal with
  | |- context [gs_while ?sa _ _ _ fuel ?st0 []] =>
      destruct (@loop_single sa width resolution f (c - width / 2)%float
                  n 0 fuel st0 []) as (st' & Hrun & Hopt);
      [reflexivity | reflexivity | intros k Hk; apply Hin; lia
      | exact Hout | exact Hfuel | ];
      assert (Hsound : gs_sound f st0 [])
        by (split; [constructor | reflexivity])
  end.
  cbn [app gs_opt_val] in Hrun, Hopt.
  assert (Hs' : gs_sound f st'
                  (map (fun k => [PyFloat
                     (grid_point (c - width / 2) resolution k)]) (seq 0 n)))
    by (eapply loop_sound; [exact Hsound | exact Hrun]).
  destruct Hs' as [_ Hbest].
  rewrite Hrun. fold (best_of (map (fun k => f [PyFloat
    (grid_point (c - width / 2) resolution k)]) (seq 0 n))) in Hopt.
  destruct (gs_best_angles st') as [b|].
  - destruct Hbest as (Hb & Hfb & Hlt). rewrite Hopt in Hfb, Hlt.
    rewrite Hlt. exists b. unfold ret. rewrite Hopt.
    split; [reflexivity|]. intros _. split; assumption.
  - rewrite Hopt in Hbest. rewrite Hbest.
    change (flt float_inf float_inf) with false.
    exists []. split; [reflexivity|]. discriminate.
Qed.

(** X14. With a single angle, [GridSearch] evaluates the objective at
    exactly the grid points start, start + resolution, (start +
    resolution) + resolution, ... that are below start + 1.01 * width, in
    this order, and stops at the first one that is not.  If the least of
    the values (the running minimum from infinity) is below infinity, it
    returns that value with a point where the objective takes it;
    otherwise [best_angles] was never assigned and it raises
    [UnboundLocalError]. *)
Theorem GridSearch_one_angle_grid (fuel n : nat)
    (c width resolution : float) (f : list pyval -> float) :
  let start := (c - width / 2)%float in
  let limit := (start + width * f1_01)%float in
  let point := grid_point start resolution in
  let points := map (fun k => [PyFloat (point k)]) (seq 0 n) in
  let least := best_of (map (fun k => f [PyFloat (point k)]) (seq 0 n)) in
  (n < fuel)%nat ->
  (forall k, (k < n)%nat -> flt (point k) limit = true) ->
  flt (point n) limit = false ->
  exists best : list pyval,
    GridSearch fuel [c] width resolution (logging f) []
    = (if flt least float_inf then Ok (Some (best, least))
       else Raise UnboundLocalError,
       points)
    /\ (flt least float_inf = true -> In best points /\ f best = least).
Proof. exact (@one_angle_run fuel n c width resolution f). Qed.

Lemma GridSearch_one_angle_grid_witness :
  exists best : list pyval,
    GridSearch 10 [0%float] 1 0.5 (logging square_of_first) []
    = (Ok (Some (best, 0%float)),
       [[PyFloat (-0.5)]; [PyFloat 0]; [PyFloat 0.5]])
    /\ In best [[PyFloat (-0.5)]; [PyFloat 0]; [PyFloat 0.5]]
    /\ square_of_first best = 0%float.
Proof.
  destruct (@GridSearch_one_angle_grid 10 3 0 1 0.5 square_of_first)
    as (best & Hrun & Hbest).
  - repeat constructor.
  - intros k Hk.
    destruct k as [|[|[|k]]]; [reflexivity | reflexivity | reflexivity | lia].
  - reflexivity.
  - exists best. split; [exact Hrun | exact (Hbest eq_refl)].
Defined.

(** X15. With a single angle, when the step is lost in rounding (start +
    resolution == start, as for a resolution of zero) and the start passes
    the loop test, [GridSearch] never ends: whatever the number of
    iterations, it is still in the loop and has evaluated the objective at
    the start that many times. *)
Theorem GridSearch_absorbed_step (fuel : nat) (c width resolution : float)
    (f : list pyval -> float) :
  let start := (c - width / 2)%float in
  (start + resolution)%float = start ->
  flt start (start + width * f1_01) = true ->
  GridSearch fuel [c] width resolution (logging f) []
  = (Ok None, repeat [PyFloat start] fuel).
Proof.
  cbv zeta. intros Habs Hlt.
  unfold GridSearch. cbv zeta. unfold bind. cbn [map].
  rewrite loop_stuck
    with (s0 := (c - width / 2)%float) (a := (c - width / 2)%float)
    by (reflexivity || assumption).
  reflexivity.
Qed.

Lemma GridSearch_absorbed_step_witness :
  GridSearch 7 [0%float] 1 0 (logging square_of_first) []
  = (Ok None, repeat [PyFloat (-0.5)] 7).
Proof.
  exact (@GridSearch_absorbed_step 7 0 1 0 square_of_first eq_refl eq_refl).
Defined.

(** ** Further concrete runs *)

Lemma Objective_of_flattened_witness :
  Forall (fun row : list float => length row = 8%nat)
         [[1; 2; 3; 4; 5; 6; 7; 8]%float]
  /\ stub_Objective 5%nat (concat [[1; 2; 3; 4; 5; 6; 7; 8]%float]) 0%nat
     = (Ok (stub_norm (stub_sub 5%nat 8%nat)), 1%nat).
Proof.
  assert (H : Forall (fun row : list float => length row = 8%nat)
                     [[1; 2; 3; 4; 5; 6; 7; 8]%float])
    by (repeat constructor).
  split; [exact H|].
  exact (proj2 (Objective_of_flattened stub_print stub_simulate
                  stub_state_vector stub_norm stub_sub 5%nat 0%nat H)).
Defined.

Lemma GeneratePlot_below_two_witness :
  0 <= 1
  /\ exists (phi : nat) (rest : list (Call nat nat)),
       stub_trace 0 0%nat
       = call_random_superposition 16 phi :: call_plot [] [] :: rest
       /\ Forall (@is_pyplot_call nat nat) rest.
Proof.
  split; [discriminate|].
  exact (GeneratePlot_below_two stub_print stub_simulate stub_state_vector
           stub_random_superposition stub_uniform stub_norm stub_sub
           stub_minimize stub_plot stub_label stub_label stub_label
           stub_show (max_L := 0) 0%nat ltac:(discriminate)).
Defined.

(** With nothing to plot the stand-in plot accepts the call, and the run
    returns after the four pyplot calls that follow. *)
Example GeneratePlot_0_returns :
  fst (stub_GeneratePlot 0 {| ext := 0%nat; calls := [] |}) = Ok tt
  /\ length (stub_trace 0 0%nat) = 6%nat.
Proof. split; reflexivity. Qed.

Lemma GeneratePlot_values_are_numbers_witness :
  In (call_plot [1; 2] [0%float]) (stub_trace 2 0%nat)
  /\ Forall (fun y => (y = float_inf \/ flt y float_inf = true)
                      /\ (y =? y)%float = true) [0%float].
Proof.
  assert (Hin : In (call_plot [1; 2] [0%float]) (stub_trace 2 0%nat))
    by (vm_compute; do 21 right; left; reflexivity).
  split; [exact Hin|].
  exact (GeneratePlot_values_are_numbers stub_print stub_simulate
           stub_state_vector stub_random_superposition stub_uniform
           stub_norm stub_sub stub_minimize stub_plot stub_label stub_label
           stub_label stub_show 2 0%nat [1; 2] [0%float] Hin).
Defined.

(** ** The run of [GridSearch] on two or more angles *)

Lemma last_map_PyFloat (x d : float) (l : list float) :
  last (map PyFloat (x :: l)) (PyFloat d) = PyFloat (last (x :: l) d).
Proof.
  revert x; induction l as [|y l IH]; intros x; [reflexivity|].
  change (last (map PyFloat (x :: y :: l)) (PyFloat d))
    with (last (map PyFloat (y :: l)) (PyFloat d)).
  change (last (x :: y :: l) d) with (last (y :: l) d). apply IH.
Qed.

Lemma getitem_last_cons {A} (x d : A) (l : list A) :
  getitem_last (x :: l) = Ok (last (x :: l) d).
Proof.
  destruct (@exists_last _ (x :: l)) as (front & z & Heq); [discriminate|].
  rewrite Heq, getitem_last_app, last_last. reflexivity.
Qed.

Lemma getitem_last_floats (front : list pyval) (x d : float)
    (l : list float) :
  getitem_last (front ++ map PyFloat (x :: l))
  = Ok (PyFloat (last (x :: l) d)).
Proof.
  destruct (@exists_last _ (x :: l)) as (init & z & Heq); [discriminate|].
  rewrite Heq, map_app, app_assoc. cbn [map].
  rewrite getitem_last_app, last_last. reflexivity.
Qed.

Section GridSearchCarry.

Variables s0 s1 : float.
Variable more : list float.
Variables width resolution : float.
Variable f : list pyval -> float.

Local Abbreviation start := (s0 :: s1 :: more).
Local Abbreviation test := (gs_cond start width).
Local Abbreviation step := (gs_body start width resolution (logging f)).
Local Abbreviation loop := (gs_while start width resolution (logging f)).
Local Abbreviation carry_on := (carry start width resolution).
Local Abbreviation s_last := (last (s1 :: more) s1).

(** The array on the first grid line whose first angle is [a]. *)
Local Abbreviation on_line a := (PyFloat a :: PyFloat s1 :: map PyFloat more).
(** The array left by the carry. *)
Local Abbreviation ragged :=
  (PyList start :: PyFloat (s1 + resolution) :: map PyFloat more).

Lemma test_on_line (st : gs_state) (a : float) :
  gs_angles st = on_line a ->
  test st = Ok (flt s_last (s_last + width * f1_01)).
Proof.
  intros Ha. unfold gs_cond. rewrite Ha.
  rewrite (getitem_last_floats [PyFloat a] s1 s1 more : getitem_last
             (on_line a) = _).
  rewrite (getitem_last_cons s0 s1 (s1 :: more)). reflexivity.
Qed.

Lemma test_ragged (st : gs_state) :
  gs_angles st = ragged ->
  test st
  = Ok (flt (last ((s1 + resolution)%float :: more) s1)
            (s_last + width * f1_01)).
Proof.
  intros Ha. unfold gs_cond. rewrite Ha.
  rewrite (getitem_last_floats [PyList start] (s1 + resolution) s1 more
           : getitem_last ragged = _).
  rewrite (getitem_last_cons s0 s1 (s1 :: more)). reflexivity.
Qed.

Lemma len_on_line (v : pyval) (y : float) :
  len (v :: PyFloat y :: map PyFloat more) = 2 + len more.
Proof. rewrite !len_cons. unfold len. rewrite length_map. lia. Qed.

(** One iteration that stays below the limit of the first angle. *)
Lemma step_on_line (st : gs_state) (a : float) (log : list (list pyval)) :
  gs_angles st = on_line a ->
  fgt (a + resolution) (s0 + width * f1_01) = false ->
  step st log
  = (Ok {| gs_angles := on_line (a + resolution);
           gs_opt_val := keep_smaller (gs_opt_val st) (f (on_line a));
           gs_best_angles := if flt (f (on_line a)) (gs_opt_val st)
                             then Some (on_line a)
                             else gs_best_angles st |},
     log ++ [on_line a]).
Proof.
  intros Ha Hover.
  unfold gs_body, bind, lift, ret, logging, np_array. rewrite Ha.
  change (getitem (on_line a) 0) with (Ok (PyFloat a)).
  cbn [py_iadd].
  change (setitem (on_line a) 0 (PyFloat (a + resolution)))
    with (Ok (on_line (a + resolution))).
  cbv beta iota.
  pose proof (len_nonneg more) as Hm.
  rewrite range_cons by (rewrite len_on_line; lia).
  cbn [carry].
  change (getitem (on_line (a + resolution)) 0)
    with (Ok (PyFloat (a + resolution))).
  change (getitem start 0) with (Ok s0).
  cbn [rbind py_gt]. rewrite Hover. unfold keep_smaller.
  destruct (flt (f (on_line a)) (gs_opt_val st)); reflexivity.
Qed.

(** The iteration in which the first angle passes its limit while the
    second one can still take a step. *)
Lemma step_carry (st : gs_state) (a : float) (log : list (list pyval)) :
  gs_angles st = on_line a ->
  fgt (a + resolution) (s0 + width * f1_01) = true ->
  fgt (s1 + resolution) (s1 + width * f1_01) = false ->
  step st log
  = (Ok {| gs_angles := ragged;
           gs_opt_val := keep_smaller (gs_opt_val st) (f (on_line a));
           gs_best_angles := if flt (f (on_line a)) (gs_opt_val st)
                             then Some (on_line a)
                             else gs_best_angles st |},
     log ++ [on_line a]).
Proof.
  intros Ha Hover Hnext.
  unfold gs_body, bind, lift, ret, logging, np_array. rewrite Ha.
  change (getitem (on_line a) 0) with (Ok (PyFloat a)).
  cbn [py_iadd].
  change (setitem (on_line a) 0 (PyFloat (a + resolution)))
    with (Ok (on_line (a + resolution))).
  cbv beta iota.
  pose proof (len_nonneg more) as Hm.
  rewrite range_cons by (rewrite len_on_line; lia).
  rewrite range_cons by (rewrite len_on_line; lia).
  cbn [carry].
  change (getitem (on_line (a + resolution)) 0)
    with (Ok (PyFloat (a + resolution))).
  change (getitem start 0) with (Ok s0).
  cbn [rbind py_gt]. rewrite Hover.
  replace (0 =? len (on_line (a + resolution)) - 1) with false
    by (symmetry; apply Z.eqb_neq; rewrite len_on_line; lia).
  change (setitem (on_line (a + resolution)) 0 (PyList start))
    with (Ok (PyList start :: PyFloat s1 :: map PyFloat more)).
  cbn [rbind]. change (0 + 1) with 1.
  change (getitem (PyList start :: PyFloat s1 :: map PyFloat more) 1)
    with (Ok (PyFloat s1)).
  cbn [rbind py_iadd].
  change (setitem (PyList start :: PyFloat s1 :: map PyFloat more) 1
            (PyFloat (s1 + resolution)))
    with (Ok ragged).
  cbn [rbind].
  change (getitem ragged 1) with (Ok (PyFloat (s1 + resolution))).
  change (getitem start 1) with (Ok s1).
  cbn [rbind py_gt]. rewrite Hnext. unfold keep_smaller.
  destruct (flt (f (on_line a)) (gs_opt_val st)); reflexivity.
Qed.

(** The loop from the [j]-th point of the first line, when [m] more steps
    stay below the limit and the next one passes it. *)
Lemma loop_to_carry (m : nat) :
  forall (j fuel : nat) (st : gs_state) (log : list (list pyval)),
  gs_angles st = on_line (grid_point s0 resolution j) ->
  flt s_last (s_last + width * f1_01) = true ->
  (forall k, (j < k <= j + m)%nat ->
             fgt (grid_point s0 resolution k) (s0 + width * f1_01) = false) ->
  fgt (grid_point s0 resolution (j + m + 1)) (s0 + width * f1_01) = true ->
  fgt (s1 + resolution) (s1 + width * f1_01) = false ->
  flt (last ((s1 + resolution)%float :: more) s1) (s_last + width * f1_01)
  = true ->
  (m + 1 < fuel)%nat ->
  loop fuel st log
  = (Raise TypeError,
     log ++ map (fun k => on_line (grid_point s0 resolution k))
                (seq j (m + 1))
         ++ [ragged]).
Proof.
  induction m as [|m IH];
    intros j fuel st log Ha Htest Hin Hout Hnext Htest' Hfuel;
    (destruct fuel as [|fuel]; [lia|]); cbn [gs_while];
    unfold bind at 1, lift at 1; rewrite (test_on_line st Ha), Htest;
    unfold bind at 1.
  - replace (j + 0 + 1)%nat with (S j) in Hout by lia.
    cbn [grid_point] in Hout.
    rewrite (step_carry st log Ha Hout Hnext).
    destruct fuel as [|fuel]; [lia|]. cbn [gs_while].
    unfold bind at 1, lift at 1.
    rewrite test_ragged by reflexivity. rewrite Htest'.
    unfold bind.
    rewrite body_on_list with (l := start)
      (tl := PyFloat (s1 + resolution) :: map PyFloat more) by reflexivity.
    unfold logging, np_array. cbn [gs_angles seq map Nat.add].
    rewrite <- app_assoc. reflexivity.
  - assert (Hstep : fgt (grid_point s0 resolution j + resolution)
                        (s0 + width * f1_01) = false)
      by (apply (Hin (S j)); lia).
    rewrite (step_on_line st log Ha Hstep).
    match goal with
    | |- context [gs_while _ _ _ _ fuel ?st1 ?log1] =>
        rewrite (IH (S j) fuel st1 log1)
    end.
    + replace (S m + 1)%nat with (S (m + 1)) by lia.
      cbn [seq map]. rewrite <- !app_assoc. reflexivity.
    + reflexivity.
    + exact Htest.
    + intros k Hk. apply Hin. lia.
    + replace (S j + m + 1)%nat with (j + S m + 1)%nat by lia. exact Hout.
    + exact Hnext.
    + exact Htest'.
    + lia.
Qed.

End GridSearchCarry.

(** C10. [GridSearch] handles the carry properly only when
    [center_array] has a single element, where nothing is ever reset:
    the search then evaluates every point of its grid line and ends with
    the least value (or with [UnboundLocalError] when no value is below
    infinity).  With two or more elements, when the width and the
    resolution leave room for a further step of the second angle, the
    search evaluates the points of the first grid line until the first
    angle passes its upper limit [start + 1.01 * width]; the carry then
    stores the whole list of start angles in [angles[0]], not the first
    start angle; the next evaluation of the objective receives that ragged
    array, and the search ends there with [TypeError]: no other point of
    the grid is ever evaluated. *)
Theorem GridSearch_carry_stores_list :
  (forall (fuel n : nat) (c width resolution : float)
          (f : list pyval -> float),
      let start := (c - width / 2)%float in
      let limit := (start + width * f1_01)%float in
      let point := grid_point start resolution in
      let points := map (fun k => [PyFloat (point k)]) (seq 0 n) in
      let least :=
        best_of (map (fun k => f [PyFloat (point k)]) (seq 0 n)) in
      (n < fuel)%nat ->
      (forall k, (k < n)%nat -> flt (point k) limit = true) ->
      flt (point n) limit = false ->
      exists best : list pyval,
        GridSearch fuel [c] width resolution (logging f) []
        = (if flt least float_inf then Ok (Some (best, least))
           else Raise UnboundLocalError,
           points)
        /\ (flt least float_inf = true ->
            In best points /\ f best = least))
  /\ (forall (fuel n : nat) (c0 c1 : float) (cs : list float)
             (width resolution : float) (f : list pyval -> float),
        let s0 := (c0 - width / 2)%float in
        let s1 := (c1 - width / 2)%float in
        let more := map (fun c => (c - width / 2)%float) cs in
        let start_angles := s0 :: s1 :: more in
        let s_last := last (s1 :: more) s1 in
        let point k :=
          PyFloat (grid_point s0 resolution k)
            :: PyFloat s1 :: map PyFloat more in
        (1 <= n < fuel)%nat ->
        flt s_last (s_last + width * f1_01) = true ->
        (forall k, (1 <= k < n)%nat ->
           fgt (grid_point s0 resolution k) (s0 + width * f1_01) = false) ->
        fgt (grid_point s0 resolution n) (s0 + width * f1_01) = true ->
        fgt (s1 + resolution) (s1 + width * f1_01) = false ->
        flt (last ((s1 + resolution)%float :: more) s1)
            (s_last + width * f1_01) = true ->
        GridSearch fuel (c0 :: c1 :: cs) width resolution (logging f) []
        = (Raise TypeError,
           map point (seq 0 n)
             ++ [PyList start_angles
                   :: PyFloat (s1 + resolution) :: map PyFloat more])).
Proof.
  split.
  - intros fuel n c width resolution f.
    exact (@one_angle_run fuel n c width resolution f).
  - intros fuel n c0 c1 cs width resolution f. cbv zeta.
    intros Hn Htest Hin Hout Hnext Htest'.
    unfold GridSearch. cbv zeta. unfold bind. cbn [map].
    rewrite (@loop_to_carry (c0 - width / 2)%float (c1 - width / 2)%float
               (map (fun c => (c - width / 2)%float) cs) width resolution f
               (n - 1) 0 fuel).
    + cbn [app]. replace (n - 1 + 1)%nat with n by lia. reflexivity.
    + reflexivity.
    + exact Htest.
    + intros k Hk. apply Hin. lia.
    + replace (0 + (n - 1) + 1)%nat with n by lia. exact Hout.
    + exact Hnext.
    + exact Htest'.
    + lia.
Qed.

Lemma GridSearch_carry_stores_list_witness :
  GridSearch 20 [0; 0]%float 1 0.5 (logging square_of_first) []
  = (Raise TypeError,
     [ [PyFloat (-0.5); PyFloat (-0.5)];
       [PyFloat 0; PyFloat (-0.5)];
       [PyFloat 0.5; PyFloat (-0.5)];
       [PyList [-0.5; -0.5]%float; PyFloat 0] ]).
Proof.
  refine (proj2 GridSearch_carry_stores_list 20%nat 3%nat 0%float 0%float []
            1%float 0.5%float square_of_first _ _ _ _ _ _).
  - split; repeat constructor.
  - reflexivity.
  - intros k Hk.
    destruct k as [|[|[|k]]]; [lia | reflexivity | reflexivity | lia].
  - reflexivity.
  - reflexivity.
  - reflexivity.
Defined.

(** The block builders on qubits that are not all different, and on too
    few angles. *)
Example EvenBlockMoments_repeated_qubit :
  EvenBlockMoments [q_ 0; q_ 1; q_ 1; q_ 3] [1; 2; 3; 4]%float
  = Raise ValueError
  /\ EvenBlockMoments [q_ 0; q_ 1; q_ 2; q_ 3] [1; 2; 3]%float
     = Raise IndexError.
Proof. split; reflexivity. Qed.
